(** * Sign-language detector: gesture recognition and text accumulation

    A shallow embedding of [Ctrl-A/sign_language_server.py] (the Flask /
    Socket.IO detector) and of the detection loop of [prediction.py] (the
    stand-alone script the server was derived from).

    Python floats are IEEE-754 doubles and are modelled by Rocq's primitive
    binary64 floats; Python dicts by stdpp's [gmap]; the module-level
    globals by one record that every handler threads through; calls that
    leave the process (Socket.IO emissions, classifier calls, thread and
    camera operations) by an ordered effect trace.  [np.argsort], whose
    order on equal entries numpy leaves to its build, is a parameter. *)

From Stdlib Require Import ZArith List Bool Lia Sorted Ascii.
From Stdlib Require Import Floats.
From stdpp Require Import gmap strings list pretty sorting.

Open Scope string_scope.
Open Scope list_scope.
Open Scope nat_scope.

(** ** Library functions the detector calls *)

(** Python's built-in [min] over a non-empty sequence [x :: rest]: the first
    element is kept until a strictly smaller one is met. *)
Definition py_min (x : float) (rest : list float) : float :=
  fold_left (fun m y => if PrimFloat.ltb y m then y else m) rest x.

(** [list.sort(key=...)]: a stable sort on the integer key. *)
Fixpoint insert_by_key {A} (key : A -> nat) (x : A) (l : list A) : list A :=
  match l with
  | [] => [x]
  | y :: l' => if (key x <=? key y)%nat then x :: y :: l'
               else y :: insert_by_key key x l'
  end.

Definition py_sort_by_key {A} (key : A -> nat) (l : list A) : list A :=
  foldr (insert_by_key key) [] l.

(** [np.argmax] on a flat float64 vector: index of the first entry that no
    earlier entry dominates, a NaN winning as soon as it is met; an empty
    vector raises [ValueError] ([None]). *)
Fixpoint argmax_from (mp : float) (best i : nat) (l : list float) : nat :=
  match l with
  | [] => best
  | x :: l' =>
      if PrimFloat.is_nan mp then best
      else if negb (PrimFloat.leb x mp) then argmax_from x i (S i) l'
      else argmax_from mp best (S i) l'
  end.

Definition np_argmax (v : list float) : option nat :=
  match v with
  | [] => None
  | x :: l => Some (argmax_from x 0 1 l)
  end.

(** [np.max]: the [maximum] reduction, which keeps the accumulator when it is
    a NaN or at least the next entry. *)
Definition np_maximum (a b : float) : float :=
  if PrimFloat.leb b a || PrimFloat.is_nan a then a else b.

Definition np_max (v : list float) : option float :=
  match v with
  | [] => None
  | x :: l => Some (fold_left np_maximum l x)
  end.

(** [np.argsort] with numpy's default sort, as l.217 calls it: the indices
    of the vector in ascending order of value, a NaN after every number.
    The default sort is not stable and the order it gives to equal entries
    changes with numpy's build, so the function is a parameter of the
    embedding; [argsort_contract] is what numpy promises of it. *)
Class Numpy := np_argsort : list float -> list nat.

Definition np_lt (a b : float) : bool :=
  PrimFloat.ltb a b || (PrimFloat.is_nan b && negb (PrimFloat.is_nan a)).

Definition argsort_contract (argsort : list float -> list nat) : Prop :=
  forall v : list float,
    Permutation (argsort v) (seq 0 (length v)) /\
    StronglySorted
      (fun i j => np_lt (nth j v 0%float) (nth i v 0%float) = false)
      (argsort v).

(** One function within the contract, used to run the detector on sample
    inputs: the stable insertion sort. *)
Fixpoint argsort_insert (x : nat * float) (l : list (nat * float)) :
  list (nat * float) :=
  match l with
  | [] => [x]
  | y :: l' => if np_lt y.2 x.2 then y :: argsort_insert x l'
               else x :: y :: l'
  end.

Definition stable_argsort (v : list float) : list nat :=
  (foldr argsort_insert [] (imap (fun i x => (i, x)) v)).*1.

Definition sample_numpy : Numpy := stable_argsort.

(** The Python slice [l[-n:]]; [l[::-1]] is [reverse l]. *)
Definition py_last_n {A} (n : nat) (l : list A) : list A :=
  drop (length l - n) l.

(** ** Configuration tables (module-level constants) *)

(** Decimal literals denote the nearest double, as they do in Python. *)
Set Warnings "-inexact-float".

Definition repeat_cooldown_frames : nat := 5.

Definition CONFIDENCE_THRESHOLD : float := 0.65%float.

Definition ACTION_GESTURES : gmap string string :=
  list_to_map
    [ ("SPACE", "SPACE"); ("BACKSPACE", "BACKSPACE"); ("DELETE", "DELETE");
      ("S", "SPACE"); ("B", "BACKSPACE"); ("D", "DELETE") ].

Definition PER_CLASS_THRESHOLDS_items : list (string * float) :=
  [ ("C", 0.22%float); ("D", 0.45%float); ("U", 0.40%float);
    ("N", 0.20%float); ("2", 0.50%float); ("1", 0.50%float);
    ("I", 0.30%float) ].

Definition PER_CLASS_THRESHOLDS : gmap string float :=
  list_to_map PER_CLASS_THRESHOLDS_items.

Definition labels_items : list (Z * string) :=
  [ (0, "1"); (1, "2"); (2, "3"); (3, "4"); (4, "5"); (5, "6"); (6, "7");
    (7, "8"); (8, "9"); (9, "A"); (10, "B"); (11, "C"); (12, "D");
    (13, "E"); (14, "F"); (15, "G"); (16, "H"); (17, "I"); (18, "J");
    (19, "K"); (20, "L"); (21, "M"); (22, "N"); (23, "O"); (24, "P");
    (25, "Q"); (26, "R"); (27, "S"); (28, "T"); (29, "U"); (30, "V");
    (31, "W"); (32, "X"); (33, "Y"); (34, "Z") ]%Z.

Definition labels_dict : gmap Z string := list_to_map labels_items.

(** ** Hand observations and the feature builder ([process_frame], l.110-169) *)

Record Landmark := { lm_x : float; lm_y : float }.

(** What [hands.process] returns.  [multi_hand_landmarks] is a list of hands,
    each a list of landmarks ([None] and the empty list are both falsy and
    are both the empty list here); an entry of [multi_handedness] is [None]
    when reading [classification[0].label] raises.

    MediaPipe delivers 21 landmarks for every hand ([valid_hands] below).
    The overlay drawn on the frame (l.138-144, l.203-214) goes to the video
    stream only and is left out; [mp_drawing.draw_landmarks] accepts the
    hands MediaPipe delivers, and it is for those that the feature builder
    below stands for the code. *)
Record Results := {
  multi_hand_landmarks : list (list Landmark);
  multi_handedness : list (option string) }.

Definition handedness_label (r : Results) (idx : nat) : option string :=
  match multi_handedness r !! idx with
  | Some (Some l) => Some l
  | _ => None
  end.

Definition paired (r : Results) : list (option string * list Landmark) :=
  imap (fun idx hand_landmarks => (handedness_label r idx, hand_landmarks))
       (multi_hand_landmarks r).

Definition sort_key (item : option string * list Landmark) : nat :=
  match item.1 with
  | Some label =>
      if String.eqb label "Left" then 0
      else if String.eqb label "Right" then 1 else 2
  | None => 2
  end.

(** [paired.sort(key=sort_key)] followed by [paired[:2]]. *)
Definition sorted_hands (r : Results) : list (option string * list Landmark) :=
  take 2 (py_sort_by_key sort_key (paired r)).

(** One hand's block: every landmark relative to the hand's own minimum. *)
Definition hand_feats (landmark : list Landmark) : option (list float) :=
  match landmark with
  | [] => None
  | lm :: rest =>
      let min_x := py_min (lm_x lm) (map lm_x rest) in
      let min_y := py_min (lm_y lm) (map lm_y rest) in
      Some (flat_map (fun lm => [PrimFloat.sub (lm_x lm) min_x;
                                 PrimFloat.sub (lm_y lm) min_y]) landmark)
  end.

Definition hand_feat_len : nat := 21 * 2.

Definition zero_block : list float := replicate hand_feat_len 0%float.

(** [while len(per_hand_features) < 2: per_hand_features.append([0.0] * 42)] *)
Definition pad_two (per_hand_features : list (list float)) :
  list (list float) :=
  per_hand_features ++ replicate (2 - length per_hand_features) zero_block.

Inductive FeatureResult :=
| NoHands                               (* [multi_hand_landmarks] is falsy *)
| NoLandmarks                           (* "No landmarks detected" *)
| Features (data_aux : list float).

Definition build_features (r : Results) : FeatureResult :=
  match multi_hand_landmarks r with
  | [] => NoHands
  | _ :: _ =>
      let hs := sorted_hands r in
      let x_ := flat_map (fun h => map lm_x h.2) hs in
      let y_ := flat_map (fun h => map lm_y h.2) hs in
      let per_hand_features := omap (fun h => hand_feats h.2) hs in
      match x_, y_ with
      | [], _ | _, [] => NoLandmarks
      | _ :: _, _ :: _ =>
          match pad_two per_hand_features with
          | b0 :: b1 :: _ => Features (b0 ++ b1)
          | _ => NoLandmarks        (* never taken: two blocks after padding *)
          end
      end
  end.

(** ** The classifier adapter ([process_frame], l.170-194) *)

(** The unpickled model: either it has [predict_proba] (its result already
    flattened by [ravel]) or only [predict] (its first entry read with
    [int]).  [None] stands for a raised exception. *)
Inductive Model :=
| ProbaModel (predict_proba : list float -> option (list float))
| HardModel (predict : list float -> option Z).

Record Classification := {
  predicted_character : string;
  proba : option float;
  proba_vec : option (list float) }.

Definition label_of (predicted_label : Z) : string :=
  default "Unknown" (labels_dict !! predicted_label).

Definition classify (m : Model) (data_aux : list float) : Classification :=
  match m with
  | ProbaModel predict_proba =>
      match predict_proba data_aux with
      | None => {| predicted_character := "Unknown"; proba := None;
                   proba_vec := None |}
      | Some v =>
          match np_argmax v, np_max v with
          | Some top_idx, Some p =>
              {| predicted_character := label_of (Z.of_nat top_idx);
                 proba := Some p; proba_vec := Some v |}
          | _, _ => {| predicted_character := "Unknown"; proba := None;
                       proba_vec := Some v |}
          end
      end
  | HardModel predict =>
      match predict data_aux with
      | None => {| predicted_character := "Unknown"; proba := None;
                   proba_vec := None |}
      | Some predicted_label =>
          {| predicted_character := label_of predicted_label; proba := None;
             proba_vec := None |}
      end
  end.

(** ** The confidence gate (l.196-200) *)

Definition class_threshold (predicted_character : string) : float :=
  default CONFIDENCE_THRESHOLD (PER_CLASS_THRESHOLDS !! predicted_character).

Definition passed_threshold (c : Classification) : bool :=
  match proba c with
  | None => true
  | Some p => PrimFloat.leb (class_threshold (predicted_character c)) p
  end.

Section Server.
Context {numpy : Numpy}.

(** ** Top-3 diagnostics (l.216-224) *)

Definition top3 (c : Classification) : list (string * float) :=
  match proba_vec c with
  | None => []
  | Some v =>
      let top3_indices := reverse (py_last_n 3 (np_argsort v)) in
      let top3_chars :=
        map (fun idx => default ("?" +:+ pretty idx)
                                (labels_dict !! Z.of_nat idx)) top3_indices in
      let top3_probs := map (fun idx => nth idx v 0%float) top3_indices in
      zip top3_chars top3_probs
  end.

(** ** Side effects *)

Record SignDetected := {
  character : string;
  confidence : option float;
  ev_text_buffer : string;
  action : option string;
  ev_top3 : list (string * float) }.

Inductive Event :=
| sign_detected (payload : SignDetected)
| status (message : string)
| error (message : string).

Inductive Effect :=
| ModelCall (data_aux : list float)      (* predict_proba / predict *)
| SocketEmit (e : Event)                 (* socketio.emit *)
| ThreadStart                            (* detection_thread.start() *)
| CameraOpen                             (* cv2.VideoCapture(0, ...) *)
| CameraRelease.                         (* cap.release() *)

(** ** Module-level state of the server *)

Inductive WorkerPc := AtOpen | InLoop | Exited.

Record Globals := {
  is_detection_active : bool;
  model : option Model;
  last_predicted_character : option string;
  text_buffer : list string;
  frames_since_last_char : nat;
  workers : list WorkerPc;               (* every thread ever started *)
  trace : list Effect }.

Definition set_active (b : bool) (g : Globals) : Globals :=
  {| is_detection_active := b; model := model g;
     last_predicted_character := last_predicted_character g;
     text_buffer := text_buffer g;
     frames_since_last_char := frames_since_last_char g;
     workers := workers g; trace := trace g |}.

Definition set_last (l : option string) (g : Globals) : Globals :=
  {| is_detection_active := is_detection_active g; model := model g;
     last_predicted_character := l;
     text_buffer := text_buffer g;
     frames_since_last_char := frames_since_last_char g;
     workers := workers g; trace := trace g |}.

Definition set_text_buffer (b : list string) (g : Globals) : Globals :=
  {| is_detection_active := is_detection_active g; model := model g;
     last_predicted_character := last_predicted_character g;
     text_buffer := b;
     frames_since_last_char := frames_since_last_char g;
     workers := workers g; trace := trace g |}.

Definition set_frames (n : nat) (g : Globals) : Globals :=
  {| is_detection_active := is_detection_active g; model := model g;
     last_predicted_character := last_predicted_character g;
     text_buffer := text_buffer g;
     frames_since_last_char := n;
     workers := workers g; trace := trace g |}.

Definition set_workers (w : list WorkerPc) (g : Globals) : Globals :=
  {| is_detection_active := is_detection_active g; model := model g;
     last_predicted_character := last_predicted_character g;
     text_buffer := text_buffer g;
     frames_since_last_char := frames_since_last_char g;
     workers := w; trace := trace g |}.

Definition effect (e : Effect) (g : Globals) : Globals :=
  {| is_detection_active := is_detection_active g; model := model g;
     last_predicted_character := last_predicted_character g;
     text_buffer := text_buffer g;
     frames_since_last_char := frames_since_last_char g;
     workers := workers g; trace := trace g ++ [e] |}.

(** The state right after the module is imported with model [m]. *)
Definition initial (m : option Model) : Globals :=
  {| is_detection_active := false; model := m;
     last_predicted_character := None; text_buffer := [];
     frames_since_last_char := 0; workers := []; trace := [] |}.

(** [''.join(text_buffer)] *)
Definition join (text_buffer : list string) : string :=
  String.concat "" text_buffer.

(** ** Debounce, action dispatch and notification (l.226-252) *)

(** The [if action == ... elif ... else] chain on the text buffer. *)
Definition dispatch (action : option string) (predicted_character : string)
    (text_buffer : list string) : list string :=
  if bool_decide (action = Some "SPACE") then text_buffer ++ [" "]
  else if bool_decide (action = Some "BACKSPACE") then
    match text_buffer with
    | [] => text_buffer
    | _ :: _ => removelast text_buffer
    end
  else if bool_decide (action = Some "DELETE") then []
  else text_buffer ++ [predicted_character].

Definition should_emit (g : Globals) (c : Classification) : bool :=
  bool_decide (predicted_character c <> "Unknown")
  && passed_threshold c
  && (bool_decide (Some (predicted_character c) <> last_predicted_character g)
      || (repeat_cooldown_frames <=? frames_since_last_char g)%nat).

Definition notification (g : Globals) (c : Classification)
    (action : option string) : SignDetected :=
  {| character := predicted_character c;
     confidence := proba c;
     ev_text_buffer := join (text_buffer g);
     action := action;
     ev_top3 := top3 c |}.

Definition update_text_buffer (g : Globals) (c : Classification) : Globals :=
  if should_emit g c then
    let action := ACTION_GESTURES !! predicted_character c in
    let g1 := set_text_buffer
                (dispatch action (predicted_character c) (text_buffer g)) g in
    let g2 := set_last (Some (predicted_character c)) g1 in
    let g3 := set_frames 0 g2 in
    effect (SocketEmit (sign_detected (notification g3 c action))) g3
  else g.

(** ** [process_frame] *)

Inductive Return :=
| RetMessage (message : string)                    (* [None, message] *)
| RetNone                                          (* [None, None] *)
| RetPrediction (predicted_character : string) (proba : option float).

Definition process_frame (g : Globals) (r : Results) : Globals * Return :=
  match model g with
  | None => (g, RetMessage "Model not loaded")
  | Some m =>
      match build_features r with
      | NoHands => (g, RetNone)
      | NoLandmarks => (g, RetMessage "No landmarks detected")
      | Features data_aux =>
          if (length data_aux =? 84)%nat then
            let g1 := set_frames (frames_since_last_char g + 1) g in
            let g2 := effect (ModelCall data_aux) g1 in
            let c := classify m data_aux in
            (update_text_buffer g2 c,
             RetPrediction (predicted_character c) (proba c))
          else (g, RetNone)
      end
  end.

(** ** Request handlers (l.341-379) *)

Record Response := { success : bool; message : string }.

Definition spawn_worker (g : Globals) : Globals :=
  effect ThreadStart (set_workers (workers g ++ [AtOpen]) g).

Definition start_detection (g : Globals) : Globals * Response :=
  if is_detection_active g then
    (g, {| success := false; message := "Detection already active" |})
  else match model g with
  | None => (g, {| success := false; message := "Model not loaded" |})
  | Some _ =>
      let g1 := set_active true g in
      let g2 := set_text_buffer [] g1 in
      (spawn_worker g2,
       {| success := true; message := "Detection started" |})
  end.

Definition stop_detection (g : Globals) : Globals * Response :=
  (set_active false g,
   {| success := true; message := "Detection stopped" |}).

Definition get_text_buffer (g : Globals) : string := join (text_buffer g).

Definition clear_buffer (g : Globals) : Globals * Response :=
  (set_text_buffer [] g, {| success := true; message := "Buffer cleared" |}).

(** [handle_connect] (l.381-385) greets the client; [handle_disconnect] only
    prints. *)
Definition handle_connect (g : Globals) : Globals :=
  effect (SocketEmit (status "Connected to sign language server")) g.

Definition handle_disconnect (g : Globals) : Globals := g.

(** ** The worker thread ([detection_loop], l.264-303)

    A worker is followed through its program point: before the camera is
    opened, inside the [while] loop, or returned.  One step is either the
    opening of the camera or one loop iteration, and runs atomically. *)

Definition set_worker (i : nat) (pc : WorkerPc) (g : Globals) : Globals :=
  set_workers (<[i := pc]> (workers g)) g.

Definition detection_loop_open (i : nat) (opened : bool) (g : Globals) :
  Globals :=
  let g1 := effect CameraOpen g in
  if opened then
    set_worker i InLoop
      (effect (SocketEmit (status "Camera started successfully")) g1)
  else
    set_worker i Exited
      (effect (SocketEmit (error "Could not open video capture")) g1).

Definition detection_loop_exit (i : nat) (g : Globals) : Globals :=
  set_worker i Exited
    (effect (SocketEmit (status "Camera stopped")) (effect CameraRelease g)).

(** One test of [while is_detection_active], then [cap.read()]; [frame] is
    [None] when the read fails. *)
Definition detection_loop_iterate (i : nat) (frame : option Results)
    (g : Globals) : Globals :=
  if is_detection_active g then
    match frame with
    | None => detection_loop_exit i g
    | Some r => (process_frame g r).1
    end
  else detection_loop_exit i g.

Inductive Action :=
| CallStartDetection
| CallStopDetection
| CallGetTextBuffer
| CallClearBuffer
| WorkerOpens (i : nat) (opened : bool)
| WorkerIterates (i : nat) (frame : option Results)
| ClientConnects
| ClientDisconnects.

Definition step (g : Globals) (a : Action) : Globals :=
  match a with
  | CallStartDetection => (start_detection g).1
  | CallStopDetection => (stop_detection g).1
  | CallGetTextBuffer => g
  | CallClearBuffer => (clear_buffer g).1
  | WorkerOpens i opened =>
      match workers g !! i with
      | Some AtOpen => detection_loop_open i opened g
      | _ => g
      end
  | WorkerIterates i frame =>
      match workers g !! i with
      | Some InLoop => detection_loop_iterate i frame g
      | _ => g
      end
  | ClientConnects => handle_connect g
  | ClientDisconnects => handle_disconnect g
  end.

Definition run (g : Globals) (l : list Action) : Globals := fold_left step l g.

Inductive reachable (m : option Model) : Globals -> Prop :=
| reachable_initial : reachable m (initial m)
| reachable_step g a : reachable m g -> reachable m (step g a).

(** Feeding a worker a sequence of frames while detection stays active. *)
Definition process_frames (g : Globals) (frames : list Results) : Globals :=
  fold_left (fun g r => (process_frame g r).1) frames g.

(** The [sign_detected] payloads in a trace, in order of emission. *)
Definition notifications (t : list Effect) : list SignDetected :=
  omap (fun e => match e with
                 | SocketEmit (sign_detected p) => Some p
                 | _ => None
                 end) t.

Definition model_calls (t : list Effect) : list (list float) :=
  omap (fun e => match e with ModelCall v => Some v | _ => None end) t.

End Server.

(** ** The stand-alone script [prediction.py]

    Its main loop builds features, classifies and gates exactly as
    [process_frame] does (l.94-184 repeat l.110-200 of the server), then runs
    its own update block (l.194-208) and reads one key (l.231-244). *)

Module PredictionScript.

Record State := {
  last_predicted_character : option string;
  text_buffer : list string;
  frames_since_last_char : nat;
  BRIGHTNESS_BETA : Z;
  printed : list string }.        (* [print(predicted_character, end='')] *)

(** l.18-19 and l.74-77 *)
Definition initial : State :=
  {| last_predicted_character := None; text_buffer := [];
     frames_since_last_char := repeat_cooldown_frames;
     BRIGHTNESS_BETA := 0; printed := [] |}.

(** l.194-208: the update block. *)
Definition update_text_buffer (s : State) (c : Classification) : State :=
  if bool_decide (Some (predicted_character c) <> last_predicted_character s)
     && bool_decide (predicted_character c <> "Unknown")
     && passed_threshold c
  then
    let action := ACTION_GESTURES !! predicted_character c in
    let literal :=
      negb (bool_decide (action = Some "SPACE")
            || bool_decide (action = Some "BACKSPACE")
            || bool_decide (action = Some "DELETE")) in
    {| last_predicted_character := Some (predicted_character c);
       text_buffer := dispatch action (predicted_character c) (text_buffer s);
       frames_since_last_char := 0;
       BRIGHTNESS_BETA := BRIGHTNESS_BETA s;
       printed := if literal then (printed s ++ [predicted_character c])%list
                  else printed s |}
  else s.

(** l.153-208 for one 84-element vector. *)
Definition detect (m : Model) (s : State) (data_aux : list float) : State :=
  let s1 := {| last_predicted_character := last_predicted_character s;
               text_buffer := text_buffer s;
               frames_since_last_char := frames_since_last_char s + 1;
               BRIGHTNESS_BETA := BRIGHTNESS_BETA s;
               printed := printed s |} in
  update_text_buffer s1 (classify m data_aux).

(** l.231-244: [key = cv2.waitKey(1) & 0xFF]; the flag tells whether the
    loop goes on. *)
Definition handle_key (s : State) (key : Z) : State * bool :=
  let s' :=
    if bool_decide (key = 43 \/ key = 61)%Z then
      {| last_predicted_character := last_predicted_character s;
         text_buffer := text_buffer s;
         frames_since_last_char := frames_since_last_char s;
         BRIGHTNESS_BETA := Z.min 100 (BRIGHTNESS_BETA s + 5);
         printed := printed s |}
    else
      let buf : list string :=
        if bool_decide (key = 32)%Z then (text_buffer s ++ [" "])%list
        else if bool_decide (key = 8)%Z then
          match text_buffer s with
          | [] => text_buffer s
          | _ :: _ => removelast (text_buffer s)
          end
        else if bool_decide (key = 127)%Z then []
        else text_buffer s in
      {| last_predicted_character := last_predicted_character s;
         text_buffer := buf;
         frames_since_last_char := frames_since_last_char s;
         BRIGHTNESS_BETA := BRIGHTNESS_BETA s;
         printed := printed s |} in
  (s', negb (bool_decide (key = 113)%Z)).

(** One pass through [while True]; [frame] is [None] when [cap.read()]
    fails. *)
Definition iteration (m : Model) (s : State) (frame : option Results)
    (key : Z) : State * bool :=
  match frame with
  | None => (s, false)
  | Some r =>
      match build_features r with
      | NoHands => handle_key s key
      | NoLandmarks => (s, true)                   (* [continue] *)
      | Features data_aux =>
          if (length data_aux =? 84)%nat
          then handle_key (detect m s data_aux) key
          else handle_key s key
      end
  end.

(** Frames shown to the script with no key pressed ([waitKey] gives 255). *)
Definition watch (m : Model) (s : State) (frames : list Results) : State :=
  fold_left (fun s r => (iteration m s (Some r) 255).1) frames s.

End PredictionScript.

Section Notions.
Context {numpy : Numpy}.

(** ** Notions used in the statements *)

(** A hand observation as the landmark model delivers it: 21 points. *)
Definition valid_hands (r : Results) : Prop :=
  Forall (fun h : list Landmark => length h = 21) (multi_hand_landmarks r).

(** A frame is processed when an 84-element vector was built from it; the
    classification is then the adapter's answer on that vector. *)
Definition processed (m : Model) (r : Results) :
  option (list float * Classification) :=
  match build_features r with
  | Features data_aux =>
      if (length data_aux =? 84)%nat
      then Some (data_aux, classify m data_aux) else None
  | _ => None
  end.

(** Accepted: not the "Unknown" sentinel, and through the confidence gate. *)
Definition accepted (c : Classification) : bool :=
  bool_decide (predicted_character c <> "Unknown") && passed_threshold c.

(** The frame is processed and its accepted label is [L]. *)
Definition shows (m : Model) (L : string) (r : Results) : bool :=
  match processed m r with
  | Some (_, c) => bool_decide (predicted_character c = L) && accepted c
  | None => false
  end.

(** Labels emitted by each frame of a sequence, frame by frame. *)
Fixpoint emissions (g : Globals) (frames : list Results) :
  list (list string) :=
  match frames with
  | [] => []
  | r :: rest =>
      let g' := (process_frame g r).1 in
      map character (drop (length (notifications (trace g)))
                          (notifications (trace g')))
      :: emissions g' rest
  end.

Fixpoint contains_char (a : Ascii.ascii) (s : string) : bool :=
  match s with
  | EmptyString => false
  | String b s' => Ascii.eqb a b || contains_char a s'
  end.

(** None of the characters 'S', 'B', 'D' occurs in [s]. *)
Definition sbd_free (s : string) : bool :=
  negb (contains_char "S"%char s || contains_char "B"%char s
        || contains_char "D"%char s).

(** A label that is not read as an action. *)
Definition is_literal (ch : string) : bool :=
  negb (bool_decide (ACTION_GESTURES !! ch = Some "SPACE")
        || bool_decide (ACTION_GESTURES !! ch = Some "BACKSPACE")
        || bool_decide (ACTION_GESTURES !! ch = Some "DELETE")).

(** ** Sample inputs *)

(** A 21-point hand whose first landmark is [(x0, y0)] and whose other
    landmarks sit at [(0.25, 0.25)]. *)
Definition sample_hand (x0 y0 : float) : list Landmark :=
  {| lm_x := x0; lm_y := y0 |}
  :: replicate 20 {| lm_x := 0.25%float; lm_y := 0.25%float |}.

Definition one_hand (x0 y0 : float) : Results :=
  {| multi_hand_landmarks := [sample_hand x0 y0];
     multi_handedness := [Some "Right"] |}.

Definition no_hand : Results :=
  {| multi_hand_landmarks := []; multi_handedness := [] |}.

Definition frame_H : Results := one_hand 0.5%float 0.25%float.
Definition frame_I : Results := one_hand 0.25%float 0.5%float.

Definition one_hot (n i : nat) (p : float) : list float :=
  replicate i 0%float ++ [p] ++ replicate (n - i - 1) 0%float.

(** A probabilistic model over the 35 classes: class 16 ('H') at 0.9 when
    the first feature is positive, class 17 ('I') at 0.5 otherwise. *)
Definition sample_proba_model : Model :=
  ProbaModel (fun v =>
    if PrimFloat.ltb 0 (nth 0 v 0%float) then Some (one_hot 35 16 0.9%float)
    else Some (one_hot 35 17 0.5%float)).

(** A hard classifier that answers class 9 ('A') on every frame. *)
Definition sample_hard_model : Model := HardModel (fun _ => Some 9%Z).

(** ** Loading the model ([_load_model], l.36-57)

    The file system is a function from paths to what opening and unpickling
    the file gives.  [os.path.join] and the directory of the module are
    left open: the search depends on the order of the candidates only. *)

Inductive Unpickled :=
| FileNotFound                          (* [FileNotFoundError] *)
| LoadFails                             (* any other exception *)
| Loaded (entry : option Model).        (* [model_dict.get('model')] *)

Section LoadModel.
Variable os_path_join : string -> list string -> string.
Variable here : string.                 (* [os.path.dirname(__file__)] *)

Definition candidate_paths : list string :=
  [ "./model.p";
    os_path_join here ["model.p"];
    os_path_join here ["models"; "model.p"];
    os_path_join here [".."; "model.p"] ].

(** The [for path in candidate_paths] loop: the result, and the paths that
    were opened, in order. *)
Fixpoint try_paths (fs : string -> Unpickled) (paths : list string) :
  option Model * list string :=
  match paths with
  | [] => (None, [])
  | path :: rest =>
      match fs path with
      | Loaded entry => (entry, [path])
      | FileNotFound | LoadFails =>
          let '(res, opened) := try_paths fs rest in (res, path :: opened)
      end
  end.

Definition _load_model (fs : string -> Unpickled) :
  option Model * list string :=
  try_paths fs candidate_paths.

End LoadModel.

(** ** The script's main loop ([prediction.py], l.79-244) *)

(** [while True] over the frames read and the keys pressed, up to the first
    [break]. *)
Fixpoint main_loop (m : Model) (s : PredictionScript.State)
    (inputs : list (option Results * Z)) : PredictionScript.State :=
  match inputs with
  | [] => s
  | (frame, key) :: rest =>
      let '(s', continue) := PredictionScript.iteration m s frame key in
      if continue then main_loop m s' rest else s'
  end.

(** ** Further notions and sample inputs *)

(** The frame is processed and its classification is not accepted: the
    label is "Unknown" or the confidence is below the threshold. *)
Definition rejects (m : Model) (r : Results) : bool :=
  match processed m r with
  | Some (_, c) => negb (accepted c)
  | None => false
  end.

(** A hard classifier that answers 'A' when the first feature is positive
    and a class outside [labels_dict] otherwise. *)
Definition sample_flicker_model : Model :=
  HardModel (fun v => if PrimFloat.ltb 0 (nth 0 v 0%float)
                      then Some 9%Z else Some 99%Z).

(** What every published [sign_detected] event satisfies. *)
Definition sound_event (p : SignDetected) : Prop :=
  (exists z, labels_dict !! z = Some (character p)) /\
  character p <> "Unknown" /\
  action p = ACTION_GESTURES !! character p /\
  (forall conf, confidence p = Some conf ->
     PrimFloat.leb (class_threshold (character p)) conf = true).

(** Every entry of the buffer is one character long. *)
Definition single_chars (text_buffer : list string) : bool :=
  forallb (fun s => String.length s =? 1) text_buffer.

(** Counting in the trace and among the workers. *)
Definition count_effect (P : Effect -> bool) (t : list Effect) : nat :=
  length (List.filter P t).

Definition is_camera_open (e : Effect) : bool :=
  match e with CameraOpen => true | _ => false end.

Definition is_camera_release (e : Effect) : bool :=
  match e with CameraRelease => true | _ => false end.

Definition is_camera_started (e : Effect) : bool :=
  match e with
  | SocketEmit (status msg) => String.eqb msg "Camera started successfully"
  | _ => false
  end.

Definition is_thread_start (e : Effect) : bool :=
  match e with ThreadStart => true | _ => false end.

Definition pc_eqb (a b : WorkerPc) : bool :=
  match a, b with
  | AtOpen, AtOpen | InLoop, InLoop | Exited, Exited => true
  | _, _ => false
  end.

Definition count_pc (pc : WorkerPc) (ws : list WorkerPc) : nat :=
  length (List.filter (pc_eqb pc) ws).



(** A file system with an unreadable [./model.p], a pickle without a model
    entry at the second candidate and a model at the third. *)
Definition sample_join (d : string) (parts : list string) : string :=
  fold_left (fun acc p => acc +:+ "/" +:+ p) parts d.

Definition sample_fs (path : string) : Unpickled :=
  if String.eqb path "./model.p" then LoadFails
  else if String.eqb path "/srv/model.p" then Loaded None
  else if String.eqb path "/srv/models/model.p"
       then Loaded (Some sample_hard_model)
  else FileNotFound.

(** The loading did not get as far as reading a model entry. *)
Definition not_loaded (u : Unpickled) : bool :=
  match u with Loaded _ => false | _ => true end.

(** The effects of [process_frame]: classifier calls and [sign_detected]
    events. *)
Definition frame_effect (e : Effect) : bool :=
  match e with
  | ModelCall _ | SocketEmit (sign_detected _) => true
  | _ => false
  end.

(** The bookkeeping kept by every step. *)
Definition camera_ledger (g : Globals) : Prop :=
  count_effect is_thread_start (trace g) = length (workers g) /\
  count_effect is_camera_open (trace g) + count_pc AtOpen (workers g)
  = length (workers g) /\
  count_effect is_camera_started (trace g)
  = count_pc InLoop (workers g) + count_effect is_camera_release (trace g).

(** Brightness between 0 and 100, in steps of 5. *)
Definition beta_ok (b : Z) : Prop := (0 <= b <= 100 /\ (5 | b))%Z.

End Notions.

(** * Properties *)

(** ** Floating point comparisons *)

Module FloatFacts.

Lemma SFcompare_Lt_swap (x y : spec_float) :
  SFcompare x y = Some Lt -> SFcompare y x = Some Gt.
Proof.
  destruct x as [sx|sx| |sx mx ex], y as [sy|sy| |sy my ey]; simpl;
    try discriminate; try (destruct sx; discriminate);
    try (destruct sy; discriminate);
    try (destruct sx, sy; discriminate || reflexivity).
  destruct sx, sy; try discriminate; try reflexivity;
    rewrite (Z.compare_antisym ex ey);
    change (PosDef.Pos.compare_cont Eq my mx) with (Pos.compare my mx);
    change (PosDef.Pos.compare_cont Eq mx my) with (Pos.compare mx my);
    rewrite (Pos.compare_antisym mx my);
    destruct (ex ?= ey)%Z; simpl; try discriminate; try reflexivity;
    destruct (mx ?= my)%positive; simpl; discriminate || reflexivity.
Qed.

(** The IEEE value is a NaN. *)
Definition sf_nan (x : spec_float) : bool :=
  match x with S754_nan => true | _ => false end.

Lemma SFcompare_refl (x : spec_float) :
  sf_nan x = false -> SFcompare x x = Some Eq.
Proof.
  destruct x as [s|s| |s m e]; simpl; try discriminate; try reflexivity.
  - by destruct s.
  - intros _. rewrite Z.compare_refl.
    change (PosDef.Pos.compare_cont Eq m m) with (Pos.compare m m).
    rewrite Pos.compare_refl. by destruct s.
Qed.

Lemma SFcompare_None (x y : spec_float) :
  SFcompare x y = None -> sf_nan x = true \/ sf_nan y = true.
Proof.
  destruct x as [sx|sx| |sx mx ex], y as [sy|sy| |sy my ey]; simpl;
    try discriminate; auto.
Qed.

Lemma SFcompare_Gt_swap (x y : spec_float) :
  SFcompare x y = Some Gt -> SFcompare y x = Some Lt.
Proof.
  destruct x as [sx|sx| |sx mx ex], y as [sy|sy| |sy my ey]; simpl;
    try discriminate; try (destruct sx; discriminate);
    try (destruct sy; discriminate);
    try (destruct sx, sy; discriminate || reflexivity).
  destruct sx, sy; try discriminate; try reflexivity;
    rewrite (Z.compare_antisym ex ey);
    change (PosDef.Pos.compare_cont Eq my mx) with (Pos.compare my mx);
    change (PosDef.Pos.compare_cont Eq mx my) with (Pos.compare mx my);
    rewrite (Pos.compare_antisym mx my);
    destruct (ex ?= ey)%Z; simpl; try discriminate; try reflexivity;
    destruct (mx ?= my)%positive; simpl; discriminate || reflexivity.
Qed.

(** [x < y] and [y <= z] give [x <= z]. *)
Lemma SFcompare_Lt_le_trans (x y z : spec_float) :
  SFcompare x y = Some Lt ->
  (SFcompare y z = Some Lt \/ SFcompare y z = Some Eq) ->
  SFcompare x z = Some Lt.
Proof.
  destruct x as [sx|sx| |sx mx ex], y as [sy|sy| |sy my ey],
    z as [sz|sz| |sz mz ez]; simpl;
    try discriminate; try (intros _ [?|?]; discriminate);
    try (destruct sx; try discriminate; destruct sy; try discriminate;
         destruct sz; intros ? [?|?]; try discriminate; reflexivity);
    try (destruct sx; try discriminate; destruct sz;
         intros ? [?|?]; try discriminate; reflexivity);
    try (destruct sy; try discriminate; destruct sz;
         intros ? [?|?]; try discriminate; reflexivity);
    try (destruct sx; try discriminate; destruct sy;
         intros ? [?|?]; try discriminate; reflexivity).
  all: change (PosDef.Pos.compare_cont Eq) with Pos.compare.
  all: destruct sx, sy, sz; try discriminate; try reflexivity;
    try (intros _ [?|?]; discriminate).
  all: destruct (Z.compare_spec ex ey), (Z.compare_spec ey ez),
    (Z.compare_spec ex ez); try lia; try discriminate; try reflexivity;
    try (intros _ [?|?]; discriminate);
    destruct (Pos.compare_spec mx my), (Pos.compare_spec my mz),
      (Pos.compare_spec mx mz); simpl; try lia; try discriminate;
      try reflexivity; try (intros _ [?|?]; discriminate);
      try (intros ? [?|?]; discriminate).
Qed.

Lemma is_nan_sf (x : float) :
  PrimFloat.is_nan x = false -> sf_nan (Prim2SF x) = false.
Proof.
  unfold PrimFloat.is_nan. rewrite FloatAxioms.eqb_spec. unfold SFeqb.
  by destruct (Prim2SF x).
Qed.

Lemma leb_refl (x : float) :
  PrimFloat.is_nan x = false -> PrimFloat.leb x x = true.
Proof.
  intros H. rewrite FloatAxioms.leb_spec. unfold SFleb.
  by rewrite (SFcompare_refl _ (is_nan_sf x H)).
Qed.

Lemma not_ltb_leb (x y : float) :
  PrimFloat.is_nan x = false -> PrimFloat.is_nan y = false ->
  PrimFloat.ltb y x = false -> PrimFloat.leb x y = true.
Proof.
  intros Hx Hy. rewrite FloatAxioms.ltb_spec, FloatAxioms.leb_spec. unfold SFltb, SFleb.
  destruct (SFcompare (Prim2SF y) (Prim2SF x)) as [[]|] eqn:E.
  - intros _. destruct (SFcompare (Prim2SF x) (Prim2SF y)) as [[]|] eqn:E';
      try done.
    + apply SFcompare_Gt_swap in E'. congruence.
    + apply SFcompare_None in E' as [E'|E'];
        [rewrite (is_nan_sf x Hx) in E'|rewrite (is_nan_sf y Hy) in E'];
        discriminate.
  - discriminate.
  - intros _. by rewrite (SFcompare_Gt_swap _ _ E).
  - apply SFcompare_None in E as [E|E];
      [rewrite (is_nan_sf y Hy) in E|rewrite (is_nan_sf x Hx) in E];
      discriminate.
Qed.

Lemma ltb_leb_trans (x y z : float) :
  PrimFloat.ltb x y = true -> PrimFloat.leb y z = true ->
  PrimFloat.leb x z = true.
Proof.
  rewrite FloatAxioms.ltb_spec, !FloatAxioms.leb_spec. unfold SFltb, SFleb. intros H1 H2.
  rewrite (SFcompare_Lt_le_trans (Prim2SF x) (Prim2SF y) (Prim2SF z));
    [done| |].
  - by destruct (SFcompare (Prim2SF x) (Prim2SF y)) as [[]|].
  - destruct (SFcompare (Prim2SF y) (Prim2SF z)) as [[]|]; auto; discriminate.
Qed.

(** [p < t] excludes [t <= p], also when a NaN is involved. *)
Lemma ltb_not_leb (p t : float) :
  PrimFloat.ltb p t = true -> PrimFloat.leb t p = false.
Proof.
  rewrite FloatAxioms.ltb_spec, FloatAxioms.leb_spec. unfold SFltb, SFleb.
  destruct (SFcompare (Prim2SF p) (Prim2SF t)) as [[]|] eqn:E; try discriminate.
  intros _. now rewrite (SFcompare_Lt_swap _ _ E).
Qed.

End FloatFacts.

Section Basics.
Context {numpy : Numpy}.

(** ** Sorting by key *)

Section SortByKey.
Context {A : Type} (key : A -> nat).

Lemma insert_by_key_perm (x : A) (l : list A) :
  insert_by_key key x l ≡ₚ x :: l.
Proof.
  induction l as [|y l IH]; simpl; [done|].
  destruct (key x <=? key y)%nat; [done|].
  rewrite IH. apply Permutation_swap.
Qed.

Lemma py_sort_by_key_perm (l : list A) : py_sort_by_key key l ≡ₚ l.
Proof.
  induction l as [|x l IH]; simpl; [done|].
  unfold py_sort_by_key in *. simpl.
  rewrite insert_by_key_perm. by rewrite IH.
Qed.

Lemma py_sort_by_key_length (l : list A) :
  length (py_sort_by_key key l) = length l.
Proof. by rewrite py_sort_by_key_perm. Qed.

Lemma insert_by_key_sorted (x : A) (l : list A) :
  StronglySorted (fun a b => key a <= key b) l ->
  StronglySorted (fun a b => key a <= key b) (insert_by_key key x l).
Proof.
  induction 1 as [|y l Hs IH Hy]; simpl.
  - repeat constructor.
  - destruct (Nat.leb_spec (key x) (key y)) as [Hle|Hlt].
    + constructor; [by constructor|].
      constructor; [done|].
      eapply Forall_impl; [exact Hy|]. simpl. intros; lia.
    + constructor; [done|].
      rewrite insert_by_key_perm. constructor; [lia|done].
Qed.

Lemma py_sort_by_key_sorted (l : list A) :
  StronglySorted (fun a b => key a <= key b) (py_sort_by_key key l).
Proof.
  induction l as [|x l IH]; [constructor|].
  by apply insert_by_key_sorted.
Qed.

(** Stability: entries with the same key keep their order. *)
Lemma insert_by_key_stable (n : nat) (x : A) (l : list A) :
  StronglySorted (fun a b => key a <= key b) l ->
  filter (fun a => key a = n) (insert_by_key key x l)
  = filter (fun a => key a = n) (x :: l).
Proof.
  induction 1 as [|y l Hs IH Hy]; simpl; [done|].
  destruct (Nat.leb_spec (key x) (key y)) as [Hle|Hlt]; [done|].
  rewrite !filter_cons in *.
  destruct (decide (key y = n)) as [Hyn|Hyn];
    destruct (decide (key x = n)) as [Hxn|Hxn]; try lia;
    by rewrite IH.
Qed.

Lemma py_sort_by_key_stable (n : nat) (l : list A) :
  filter (fun a => key a = n) (py_sort_by_key key l)
  = filter (fun a => key a = n) l.
Proof.
  induction l as [|x l IH]; [done|].
  change (py_sort_by_key key (x :: l))
    with (insert_by_key key x (py_sort_by_key key l)).
  rewrite insert_by_key_stable by apply py_sort_by_key_sorted.
  by rewrite !filter_cons, IH.
Qed.
End SortByKey.

(** ** The feature builder *)

Lemma py_min_in (x : float) (rest : list float) : In (py_min x rest) (x :: rest).
Proof.
  unfold py_min. revert x.
  induction rest as [|y rest IH]; intros x; simpl; [by left|].
  destruct (PrimFloat.ltb y x).
  - right. apply IH.
  - destruct (IH x) as [H|H]; [left; exact H | right; right; exact H].
Qed.

(** Among coordinates that are numbers, [min] is a lower bound. *)
Lemma py_min_lower_bound (x : float) (rest : list float) :
  Forall (fun y => PrimFloat.is_nan y = false) (x :: rest) ->
  Forall (fun y => PrimFloat.leb (py_min x rest) y = true) (x :: rest).
Proof.
  intros Hn.
  assert (G : forall (seen : list float) (m : float),
             PrimFloat.is_nan m = false ->
             Forall (fun y => PrimFloat.is_nan y = false) rest ->
             Forall (fun y => PrimFloat.leb m y = true) seen ->
             Forall (fun y => PrimFloat.leb (py_min m rest) y = true)
                    (seen ++ rest)).
  { clear. induction rest as [|y rest IH]; intros seen m Hm Hr Hs.
    - by rewrite app_nil_r.
    - apply Forall_cons in Hr as [Hy Hr]. unfold py_min. cbn [fold_left].
      change (seen ++ y :: rest) with (seen ++ [y] ++ rest).
      rewrite app_assoc.
      destruct (PrimFloat.ltb y m) eqn:E.
      + apply (IH (seen ++ [y]) y Hy Hr). apply Forall_app. split.
        * eapply Forall_impl; [exact Hs|]. intros z Hz.
          by apply (FloatFacts.ltb_leb_trans y m z).
        * constructor; [by apply FloatFacts.leb_refl|constructor].
      + apply (IH (seen ++ [y]) m Hm Hr). apply Forall_app. split; [done|].
        constructor; [by apply FloatFacts.not_ltb_leb|constructor]. }
  apply Forall_cons in Hn as [Hx Hr].
  apply (G [x] x Hx Hr). constructor; [by apply FloatFacts.leb_refl|constructor].
Qed.

(** Shape of one hand's block: pairs [(x - min_x, y - min_y)], the two
    minima taken among the hand's own coordinates; they are lower bounds of
    the coordinates when none of these is a NaN. *)
Lemma hand_feats_shape (h : list Landmark) (b : list float) :
  hand_feats h = Some b ->
  exists min_x min_y,
    In min_x (map lm_x h) /\ In min_y (map lm_y h) /\
    (Forall (fun x => PrimFloat.is_nan x = false) (map lm_x h) ->
     Forall (fun x => PrimFloat.leb min_x x = true) (map lm_x h)) /\
    (Forall (fun y => PrimFloat.is_nan y = false) (map lm_y h) ->
     Forall (fun y => PrimFloat.leb min_y y = true) (map lm_y h)) /\
    b = flat_map (fun lm => [PrimFloat.sub (lm_x lm) min_x;
                             PrimFloat.sub (lm_y lm) min_y]) h.
Proof.
  destruct h as [|lm rest]; [discriminate|].
  intros [= <-].
  exists (py_min (lm_x lm) (map lm_x rest)), (py_min (lm_y lm) (map lm_y rest)).
  split; [apply (py_min_in (lm_x lm))|].
  split; [apply (py_min_in (lm_y lm))|].
  split; [apply (py_min_lower_bound (lm_x lm))|].
  split; [apply (py_min_lower_bound (lm_y lm))|]. reflexivity.
Qed.

Lemma flat_map_pair_length {A B} (f g : A -> B) (l : list A) :
  length (flat_map (fun a => [f a; g a]) l) = 2 * length l.
Proof. induction l as [|a l IH]; simpl; [done|]. rewrite IH. lia. Qed.

Lemma hand_feats_valid (h : list Landmark) :
  length h = 21 -> exists b, hand_feats h = Some b /\ length b = 42.
Proof.
  intros Hlen. destruct h as [|lm rest]; [discriminate|].
  eexists. split; [reflexivity|].
  rewrite flat_map_pair_length, Hlen. reflexivity.
Qed.

Lemma paired_snd (r : Results) : (paired r).*2 = multi_hand_landmarks r.
Proof.
  unfold paired. generalize (handedness_label r).
  induction (multi_hand_landmarks r) as [|h l IH]; intros f; simpl; [done|].
  f_equal. apply (IH (f ∘ S)).
Qed.

Lemma paired_length (r : Results) :
  length (paired r) = length (multi_hand_landmarks r).
Proof. by rewrite <- (paired_snd r), length_fmap. Qed.

Lemma sorted_paired_valid (r : Results) :
  valid_hands r ->
  Forall (fun p : option string * list Landmark => length p.2 = 21)
         (py_sort_by_key sort_key (paired r)).
Proof.
  intros Hv. rewrite py_sort_by_key_perm.
  unfold valid_hands in Hv. rewrite <- (paired_snd r) in Hv.
  by apply Forall_fmap in Hv.
Qed.

Lemma build_features_valid (r : Results) :
  valid_hands r -> multi_hand_landmarks r <> [] ->
  exists data, build_features r = Features data /\ length data = 84.
Proof.
  intros Hv Hne. pose proof (sorted_paired_valid r Hv) as Hs.
  pose proof (py_sort_by_key_length sort_key (paired r)) as Hlen.
  rewrite paired_length in Hlen.
  unfold build_features, sorted_hands.
  destruct (multi_hand_landmarks r) as [|h0 hs]; [done|].
  destruct (py_sort_by_key sort_key (paired r)) as [|p [|q l]];
    [discriminate| |].
  - apply Forall_cons in Hs as [Hp _].
    destruct (hand_feats_valid _ Hp) as (b & Hb & Hb42).
    destruct p as [lp [|lm rest]]; [discriminate|].
    simpl in Hb |- *. injection Hb as <-.
    eexists. split; [reflexivity|].
    cbn [length app] in Hb42 |- *. rewrite length_app.
    change (length zero_block) with 42. lia.
  - apply Forall_cons in Hs as [Hp Hs]. apply Forall_cons in Hs as [Hq _].
    destruct (hand_feats_valid _ Hp) as (b & Hb & Hb42).
    destruct (hand_feats_valid _ Hq) as (b' & Hb' & Hb'42).
    destruct p as [lp [|lm rest]]; [discriminate|].
    destruct q as [lq [|lm' rest']]; [discriminate|].
    simpl in Hb, Hb' |- *. injection Hb as <-. injection Hb' as <-.
    eexists. split; [reflexivity|].
    cbn [length app] in Hb42, Hb'42 |- *. rewrite length_app.
    cbn [length]. lia.
Qed.

Lemma build_features_one (r : Results) (h : list Landmark) :
  multi_hand_landmarks r = [h] -> length h = 21 ->
  exists b, hand_feats h = Some b /\
            build_features r = Features (b ++ replicate 42 0%float).
Proof.
  intros Hr Hh. destruct (hand_feats_valid _ Hh) as (b & Hb & _).
  exists b. split; [done|].
  unfold build_features, sorted_hands, paired. rewrite Hr. simpl.
  destruct h as [|lm rest]; [discriminate|].
  simpl in Hb |- *. by injection Hb as <-.
Qed.

Lemma build_features_two (r : Results) (h1 h2 : list Landmark) :
  multi_hand_landmarks r = [h1; h2] -> length h1 = 21 -> length h2 = 21 ->
  exists b1 b2,
    hand_feats h1 = Some b1 /\ hand_feats h2 = Some b2 /\
    build_features r
    = Features (if (sort_key (handedness_label r 0, h1)
                    <=? sort_key (handedness_label r 1, h2))%nat
                then b1 ++ b2 else b2 ++ b1).
Proof.
  intros Hr H1 H2.
  destruct (hand_feats_valid _ H1) as (b1 & Hb1 & _).
  destruct (hand_feats_valid _ H2) as (b2 & Hb2 & _).
  exists b1, b2. split; [done|]. split; [done|].
  unfold build_features, sorted_hands, paired. rewrite Hr.
  cbn [imap py_sort_by_key foldr insert_by_key compose].
  destruct h1 as [|lm1 rest1]; [discriminate|].
  destruct h2 as [|lm2 rest2]; [discriminate|].
  destruct (_ <=? _)%nat; simpl in Hb1, Hb2 |- *;
    injection Hb1 as <-; injection Hb2 as <-; reflexivity.
Qed.

(** ** Processed frames *)

Lemma notifications_app (t1 t2 : list Effect) :
  notifications (t1 ++ t2) = notifications t1 ++ notifications t2.
Proof. apply omap_app. Qed.

Lemma model_calls_app (t1 t2 : list Effect) :
  model_calls (t1 ++ t2) = model_calls t1 ++ model_calls t2.
Proof. apply omap_app. Qed.

Lemma process_frame_processed (g : Globals) (m : Model) (r : Results)
    (v : list float) (c : Classification) :
  model g = Some m -> processed m r = Some (v, c) ->
  process_frame g r
  = (update_text_buffer
       (effect (ModelCall v) (set_frames (frames_since_last_char g + 1) g)) c,
     RetPrediction (predicted_character c) (proba c)).
Proof.
  unfold processed, process_frame. intros -> H.
  destruct (build_features r) as [| |data]; try discriminate.
  destruct (length data =? 84)%nat; [|discriminate].
  by injection H as <- <-.
Qed.

Lemma process_frame_skipped (g : Globals) (m : Model) (r : Results) :
  model g = Some m -> processed m r = None -> (process_frame g r).1 = g.
Proof.
  unfold processed, process_frame. intros -> H.
  destruct (build_features r) as [| |data]; try reflexivity.
  destruct (length data =? 84)%nat; [discriminate|reflexivity].
Qed.

Lemma process_frame_no_model (g : Globals) (r : Results) :
  model g = None -> process_frame g r = (g, RetMessage "Model not loaded").
Proof. unfold process_frame. by intros ->. Qed.

(** What an emission does to the globals. *)
Lemma update_text_buffer_emit (g : Globals) (c : Classification) :
  should_emit g c = true ->
  let ch := predicted_character c in
  let a := ACTION_GESTURES !! ch in
  let buf := dispatch a ch (text_buffer g) in
  update_text_buffer g c
  = {| is_detection_active := is_detection_active g; model := model g;
       last_predicted_character := Some ch; text_buffer := buf;
       frames_since_last_char := 0; workers := workers g;
       trace := trace g ++
         [SocketEmit (sign_detected
            {| character := ch; confidence := proba c;
               ev_text_buffer := join buf; action := a;
               ev_top3 := top3 c |})] |}.
Proof. unfold update_text_buffer. by intros ->. Qed.

Lemma update_text_buffer_hold (g : Globals) (c : Classification) :
  should_emit g c = false -> update_text_buffer g c = g.
Proof. unfold update_text_buffer. by intros ->. Qed.

Lemma should_emit_accepted (g : Globals) (c : Classification) :
  should_emit g c
  = accepted c
    && (bool_decide (Some (predicted_character c) <> last_predicted_character g)
        || (repeat_cooldown_frames <=? frames_since_last_char g)%nat).
Proof. reflexivity. Qed.

(** One processed frame showing [L]: either the label is emitted and the
    counter restarts, or the frame only counts. *)
Lemma process_frame_shows (g : Globals) (m : Model) (L : string) (r : Results) :
  model g = Some m -> shows m L r = true ->
  let g' := (process_frame g r).1 in
  model g' = Some m /\
  if bool_decide (Some L <> last_predicted_character g)
     || (repeat_cooldown_frames <=? frames_since_last_char g + 1)%nat
  then
    last_predicted_character g' = Some L /\
    frames_since_last_char g' = 0 /\
    text_buffer g' = dispatch (ACTION_GESTURES !! L) L (text_buffer g) /\
    exists p, character p = L /\
      ev_text_buffer p = get_text_buffer g' /\
      notifications (trace g') = notifications (trace g) ++ [p]
  else
    last_predicted_character g' = last_predicted_character g /\
    frames_since_last_char g' = frames_since_last_char g + 1 /\
    text_buffer g' = text_buffer g /\
    notifications (trace g') = notifications (trace g).
Proof.
  intros Hm Hs. unfold shows in Hs.
  destruct (processed m r) as [[v c]|] eqn:Hp; [|discriminate].
  apply andb_true_iff in Hs as [HL Hacc]. apply bool_decide_eq_true in HL.
  cbn zeta. rewrite (process_frame_processed g m r v c Hm Hp). cbn [fst].
  set (g1 := effect (ModelCall v) (set_frames (frames_since_last_char g + 1) g)).
  assert (Hse : should_emit g1 c
                = (bool_decide (Some L <> last_predicted_character g)
                   || (repeat_cooldown_frames <=? frames_since_last_char g + 1)%nat)).
  { rewrite should_emit_accepted, Hacc, HL. reflexivity. }
  destruct (bool_decide _ || _) eqn:Hd.
  - rewrite (update_text_buffer_emit g1 c Hse). cbn. rewrite HL.
    repeat split; try done.
    eexists. split; [|split];
      [| |rewrite !notifications_app; cbn; rewrite app_nil_r; reflexivity];
      by rewrite ?HL.
  - rewrite (update_text_buffer_hold g1 c Hse). cbn.
    repeat split; try done.
    rewrite notifications_app. cbn. by rewrite app_nil_r.
Qed.

(** ** Debounce on the server *)

Lemma emissions_app (g : Globals) (l1 l2 : list Results) :
  emissions g (l1 ++ l2)
  = emissions g l1 ++ emissions (process_frames g l1) l2.
Proof.
  revert g. induction l1 as [|r l1 IH]; intros g; simpl; [done|].
  by rewrite IH.
Qed.

Lemma process_frames_app (g : Globals) (l1 l2 : list Results) :
  process_frames g (l1 ++ l2) = process_frames (process_frames g l1) l2.
Proof. apply fold_left_app. Qed.

(** What one frame showing [L] emits. *)
Lemma emissions_shows (g : Globals) (m : Model) (L : string) (r : Results) :
  model g = Some m -> shows m L r = true ->
  emissions g [r]
  = [if bool_decide (Some L <> last_predicted_character g)
        || (repeat_cooldown_frames <=? frames_since_last_char g + 1)
     then [L] else []].
Proof.
  intros Hm Hs. pose proof (process_frame_shows g m L r Hm Hs) as [_ H].
  cbn zeta in H. cbn [emissions].
  destruct (bool_decide _ || _).
  - destruct H as (_ & _ & _ & p & Hp & _ & ->).
    by rewrite drop_app_length, <- Hp.
  - destruct H as (_ & _ & _ & ->). by rewrite drop_all.
Qed.

(** While the same label is held and the counter stays below the cooldown,
    nothing is emitted and only the counter moves. *)
Lemma hold_below_cooldown (m : Model) (L : string) (rs : list Results)
    (g : Globals) :
  model g = Some m ->
  last_predicted_character g = Some L ->
  frames_since_last_char g + length rs < repeat_cooldown_frames ->
  Forall (fun r => shows m L r = true) rs ->
  let g' := process_frames g rs in
  emissions g rs = replicate (length rs) [] /\
  model g' = Some m /\
  last_predicted_character g' = Some L /\
  frames_since_last_char g' = frames_since_last_char g + length rs /\
  text_buffer g' = text_buffer g /\
  notifications (trace g') = notifications (trace g).
Proof.
  revert g. induction rs as [|r rs IH]; intros g Hm Hl Hn Hall; cbn zeta.
  - cbn. rewrite Nat.add_0_r. done.
  - apply Forall_cons in Hall as [Hr Hall]. cbn [length] in Hn.
    pose proof (process_frame_shows g m L r Hm Hr) as [Hm' H].
    pose proof (emissions_shows g m L r Hm Hr) as He.
    cbn zeta in H. rewrite Hl in H, He.
    rewrite bool_decide_eq_false_2 in H, He by (intros X; by apply X).
    destruct (Nat.leb_spec repeat_cooldown_frames (frames_since_last_char g + 1))
      as [Hge|Hlt]; [lia|].
    cbn [orb] in H, He. destruct H as (Hl' & Hf' & Hb' & Hn').
    destruct (IH (process_frame g r).1 Hm' Hl') as (E & M & La & Fr & Bu & No);
      [lia|done|].
    change (emissions g (r :: rs))
      with (emissions g [r] ++ emissions (process_frame g r).1 rs).
    change (process_frames g (r :: rs))
      with (process_frames (process_frame g r).1 rs).
    rewrite He, E, M, La, Fr, Bu, No, Hf', Hb', Hn'. cbn [length replicate].
    repeat split; try done. lia.
Qed.

(** Four frames of one label after a different one: a single emission, on
    the first frame. *)
Lemma server_four_frames (m : Model) (L : string) (rs : list Results)
    (g : Globals) :
  model g = Some m -> last_predicted_character g <> Some L ->
  length rs = 4 -> Forall (fun r => shows m L r = true) rs ->
  emissions g rs = [[L]; []; []; []].
Proof.
  intros Hm Hl Hlen Hall.
  destruct rs as [|r1 rs]; [discriminate|]. injection Hlen as Hlen.
  apply Forall_cons in Hall as [H1 Hall].
  pose proof (process_frame_shows g m L r1 Hm H1) as [Hm1 HS].
  pose proof (emissions_shows g m L r1 Hm H1) as He. cbn zeta in HS.
  rewrite bool_decide_eq_true_2 in HS, He by congruence. cbn [orb] in HS, He.
  destruct HS as (Hl1 & Hf1 & _ & _).
  destruct (hold_below_cooldown m L rs _ Hm1 Hl1) as [E _];
    [rewrite Hf1, Hlen; unfold repeat_cooldown_frames; lia|done|].
  change (emissions g (r1 :: rs))
    with (emissions g [r1] ++ emissions (process_frame g r1).1 rs).
  rewrite He, E, Hlen. reflexivity.
Qed.

(** Six frames: a second emission on the sixth, where the counter reads 5. *)
Lemma server_six_frames (m : Model) (L : string) (rs : list Results)
    (g : Globals) :
  model g = Some m -> last_predicted_character g <> Some L ->
  length rs = 6 -> Forall (fun r => shows m L r = true) rs ->
  emissions g rs = [[L]; []; []; []; []; [L]] /\
  frames_since_last_char (process_frames g (take 5 rs)) + 1
  = repeat_cooldown_frames.
Proof.
  intros Hm Hl Hlen Hall.
  destruct rs as [|r1 rs]; [discriminate|]. injection Hlen as Hlen.
  apply Forall_cons in Hall as [H1 Hall].
  pose proof (process_frame_shows g m L r1 Hm H1) as [Hm1 HS].
  pose proof (emissions_shows g m L r1 Hm H1) as He. cbn zeta in HS.
  rewrite bool_decide_eq_true_2 in HS, He by congruence. cbn [orb] in HS, He.
  destruct HS as (Hl1 & Hf1 & _ & _).
  set (g1 := (process_frame g r1).1) in *.
  assert (Hsplit : rs = take 4 rs ++ drop 4 rs) by (by rewrite take_drop).
  destruct (drop 4 rs) as [|r6 [|? ?]] eqn:Hd;
    try (apply (f_equal length) in Hd; rewrite length_drop, Hlen in Hd;
         discriminate).
  assert (Hlen4 : length (take 4 rs) = 4) by (rewrite length_take; lia).
  rewrite Hsplit in Hall. apply Forall_app in Hall as [Hall4 Hall6].
  apply Forall_cons in Hall6 as [H6 _].
  destruct (hold_below_cooldown m L (take 4 rs) g1 Hm1 Hl1)
    as (E & Hm5 & Hl5 & Hf5 & _);
    [rewrite Hf1, Hlen4; unfold repeat_cooldown_frames; lia|done|].
  pose proof (emissions_shows _ m L r6 Hm5 H6) as He6.
  rewrite Hl5, Hf5, Hf1, Hlen4 in He6.
  rewrite bool_decide_eq_false_2 in He6 by (intros X; by apply X).
  change (repeat_cooldown_frames <=? 0 + 4 + 1) with true in He6.
  cbn [orb] in He6.
  split.
  - change (emissions g (r1 :: rs))
      with (emissions g [r1] ++ emissions g1 rs).
    rewrite Hsplit, emissions_app, He, E, He6, Hlen4. reflexivity.
  - change (take 5 (r1 :: rs)) with (r1 :: take 4 rs).
    change (process_frames g (r1 :: take 4 rs))
      with (process_frames g1 (take 4 rs)).
    rewrite Hf5, Hf1, Hlen4. reflexivity.
Qed.

End Basics.

(** ** Debounce in [prediction.py] *)

Module ScriptFacts.
Import PredictionScript.

Lemma handle_key_none (s : State) : handle_key s 255 = (s, true).
Proof. by destruct s. Qed.

Lemma iteration_processed (m : Model) (s : State) (r : Results)
    (v : list float) (c : Classification) :
  processed m r = Some (v, c) ->
  (iteration m s (Some r) 255).1
  = update_text_buffer
      {| last_predicted_character := last_predicted_character s;
         text_buffer := text_buffer s;
         frames_since_last_char := frames_since_last_char s + 1;
         BRIGHTNESS_BETA := BRIGHTNESS_BETA s;
         printed := printed s |} c.
Proof.
  unfold processed, iteration. intros H.
  destruct (build_features r) as [| |data]; try discriminate.
  destruct (length data =? 84); [|discriminate].
  injection H as <- <-. by rewrite handle_key_none.
Qed.

(** A frame that shows the label the script already holds changes nothing
    but the counter, whatever the counter reads. *)
Lemma held_label_never_repeats (m : Model) (L : string) (r : Results)
    (s : State) :
  shows m L r = true -> last_predicted_character s = Some L ->
  (iteration m s (Some r) 255).1
  = {| last_predicted_character := Some L;
       text_buffer := text_buffer s;
       frames_since_last_char := frames_since_last_char s + 1;
       BRIGHTNESS_BETA := BRIGHTNESS_BETA s;
       printed := printed s |}.
Proof.
  intros Hs Hl. unfold shows in Hs.
  destruct (processed m r) as [[v c]|] eqn:Hp; [|discriminate].
  apply andb_true_iff in Hs as [HL _]. apply bool_decide_eq_true in HL.
  rewrite (iteration_processed m s r v c Hp).
  unfold update_text_buffer. cbn. rewrite HL, Hl.
  rewrite bool_decide_eq_false_2 by (intros X; by apply X). reflexivity.
Qed.

Lemma watch_held_label (m : Model) (L : string) (rs : list Results)
    (s : State) :
  Forall (fun r => shows m L r = true) rs ->
  last_predicted_character s = Some L ->
  let s' := watch m s rs in
  text_buffer s' = text_buffer s /\ printed s' = printed s /\
  last_predicted_character s' = Some L /\
  frames_since_last_char s' = frames_since_last_char s + length rs.
Proof.
  revert s. induction rs as [|r rs IH]; intros s Hall Hl.
  - cbn. by rewrite Nat.add_0_r.
  - apply Forall_cons in Hall as [Hr Hall].
    change (watch m s (r :: rs))
      with (watch m (iteration m s (Some r) 255).1 rs).
    rewrite (held_label_never_repeats m L r s Hr Hl).
    cbn zeta.
    match goal with |- context [watch m ?s1 rs] =>
      destruct (IH s1 Hall) as (-> & -> & -> & ->); [reflexivity|] end.
    cbn. repeat split; try done. lia.
Qed.

(** A frame that shows a label other than the held one runs the update
    block. *)
Lemma new_label_emitted (m : Model) (L : string) (r : Results) (s : State) :
  shows m L r = true -> last_predicted_character s <> Some L ->
  let s' := (iteration m s (Some r) 255).1 in
  last_predicted_character s' = Some L /\
  frames_since_last_char s' = 0 /\
  text_buffer s' = dispatch (ACTION_GESTURES !! L) L (text_buffer s).
Proof.
  intros Hs Hl. unfold shows in Hs.
  destruct (processed m r) as [[v c]|] eqn:Hp; [|discriminate].
  apply andb_true_iff in Hs as [HL Hacc]. apply bool_decide_eq_true in HL.
  apply andb_true_iff in Hacc as [Hu Hg].
  cbn zeta. rewrite (iteration_processed m s r v c Hp).
  unfold update_text_buffer.
  cbn [PredictionScript.last_predicted_character].
  rewrite HL in *. rewrite bool_decide_eq_true_2 by congruence.
  rewrite Hu, Hg. cbn [andb]. done.
Qed.

(** However long a new label is shown, the script's update block runs for it
    once: the buffer is edited a single time, and the counter then runs on
    past the cooldown. *)
Lemma watch_emits_once (m : Model) (L : string) (r : Results)
    (rs : list Results) (s : State) :
  Forall (fun r => shows m L r = true) (r :: rs) ->
  last_predicted_character s <> Some L ->
  let s' := watch m s (r :: rs) in
  text_buffer s' = dispatch (ACTION_GESTURES !! L) L (text_buffer s) /\
  last_predicted_character s' = Some L /\
  frames_since_last_char s' = length rs.
Proof.
  intros Hall Hl. apply Forall_cons in Hall as [Hr Hall].
  change (watch m s (r :: rs)) with (watch m (iteration m s (Some r) 255).1 rs).
  destruct (new_label_emitted m L r s Hr Hl) as (Hl1 & Hf1 & Hb1).
  destruct (watch_held_label m L rs _ Hall Hl1) as (Hb & _ & Hl' & Hf).
  cbn zeta. by rewrite Hb, Hl', Hf, Hb1, Hf1.
Qed.

End ScriptFacts.

Section Claims.
Context {numpy : Numpy}.

(** ** The confidence gate *)

Lemma PER_CLASS_THRESHOLDS_override (ch : string) (t : float) :
  PER_CLASS_THRESHOLDS !! ch = Some t <-> (ch, t) ∈ PER_CLASS_THRESHOLDS_items.
Proof.
  unfold PER_CLASS_THRESHOLDS. split.
  - apply elem_of_list_to_map_2.
  - apply elem_of_list_to_map_1.
    unfold PER_CLASS_THRESHOLDS_items. cbn [fmap list_fmap fst].
    by apply (bool_decide_unpack (NoDup _)).
Qed.

Lemma class_threshold_reflexive (ch : string) :
  PrimFloat.leb (class_threshold ch) (class_threshold ch) = true.
Proof.
  unfold class_threshold.
  destruct (PER_CLASS_THRESHOLDS !! ch) as [t|] eqn:E; cbn [default].
  - apply PER_CLASS_THRESHOLDS_override in E.
    unfold PER_CLASS_THRESHOLDS_items in E.
    repeat (apply elem_of_cons in E as [[= _ ->]|E]; [reflexivity|]).
    by apply elem_of_nil in E.
  - reflexivity.
Qed.

(** C3 -- Confidence gate: a classification that carries a probability is
    accepted exactly when the probability is at least the applicable
    threshold; the threshold is the label's entry in the per-class table when
    there is one and the global default 0.65 otherwise; a probability equal
    to the threshold passes and one strictly below it does not. *)
Theorem confidence_gate (c : Classification) (p : float) :
  proba c = Some p ->
  let t := class_threshold (predicted_character c) in
  (passed_threshold c = true <-> PrimFloat.leb t p = true) /\
  (forall o, (predicted_character c, o) ∈ PER_CLASS_THRESHOLDS_items -> t = o) /\
  (predicted_character c ∉ PER_CLASS_THRESHOLDS_items.*1 ->
   t = 0.65%float) /\
  (p = t -> passed_threshold c = true) /\
  (PrimFloat.ltb p t = true -> passed_threshold c = false).
Proof.
  intros Hp t. unfold passed_threshold. rewrite Hp. fold t.
  split; [done|]. split; [|split; [|split]].
  - intros o Ho. apply PER_CLASS_THRESHOLDS_override in Ho.
    unfold t, class_threshold. by rewrite Ho.
  - intros Hn. unfold t, class_threshold.
    destruct (PER_CLASS_THRESHOLDS !! predicted_character c) as [o|] eqn:E;
      [|reflexivity].
    apply PER_CLASS_THRESHOLDS_override in E. exfalso. apply Hn.
    apply list_elem_of_fmap. by exists (predicted_character c, o).
  - intros ->. apply class_threshold_reflexive.
  - apply FloatFacts.ltb_not_leb.
Qed.

(** ** Hard classifiers *)

(** C7 -- Hard-classifier pass-through: when the loaded model has no
    [predict_proba], the adapter's answer on any 84-element vector carries no
    confidence, passes the confidence gate unconditionally, and
    [process_frame] reports the label with confidence [None]. *)
Theorem hard_classifier_passes_gate (predict : list float -> option Z)
    (data_aux : list float) (g : Globals) (r : Results) :
  length data_aux = 84 ->
  build_features r = Features data_aux ->
  model g = Some (HardModel predict) ->
  let c := classify (HardModel predict) data_aux in
  proba c = None /\ passed_threshold c = true /\
  (process_frame g r).2 = RetPrediction (predicted_character c) None /\
  accepted c = bool_decide (predicted_character c <> "Unknown").
Proof.
  intros Hlen Hb Hm c.
  assert (Hp : proba c = None).
  { unfold c, classify. by destruct (predict data_aux). }
  assert (Hg : passed_threshold c = true).
  { unfold passed_threshold. by rewrite Hp. }
  repeat split; try done.
  - rewrite (process_frame_processed g _ r data_aux c Hm).
    + cbn [snd]. by rewrite Hp.
    + unfold processed. rewrite Hb, Hlen. reflexivity.
  - unfold accepted. rewrite Hg. by rewrite andb_true_r.
Qed.

(** ** The action dispatcher *)

Lemma removelast_snoc {A} (l : list A) (x : A) : removelast (l ++ [x]) = l.
Proof. apply removelast_last. Qed.

Lemma string_app_cons (a : Ascii.ascii) (s t : string) :
  (String a s +:+ t = String a (s +:+ t))%string.
Proof. reflexivity. Qed.

Lemma string_app_assoc (s1 s2 s3 : string) :
  (s1 +:+ s2 +:+ s3 = (s1 +:+ s2) +:+ s3)%string.
Proof.
  induction s1 as [|a s1 IH]; [done|].
  by rewrite !string_app_cons, IH.
Qed.

Lemma string_app_empty_r (s : string) : (s +:+ "" = s)%string.
Proof.
  induction s as [|a s IH]; [done|]. by rewrite string_app_cons, IH.
Qed.

Lemma join_cons (a : string) (l : list string) :
  join (a :: l) = (a +:+ join l)%string.
Proof.
  unfold join. destruct l as [|b l]; [|done].
  cbn [String.concat]. by rewrite string_app_empty_r.
Qed.

Lemma join_snoc (l : list string) (s : string) :
  join (l ++ [s]) = (join l +:+ s)%string.
Proof.
  induction l as [|a l IH].
  - cbn. change (join [s]) with s. reflexivity.
  - change ((a :: l) ++ [s]) with (a :: (l ++ [s])).
    by rewrite !join_cons, IH, string_app_assoc.
Qed.

(** C5 -- Action dispatcher: when a label is emitted, action SPACE appends
    one space; BACKSPACE drops the last entry of a non-empty buffer and
    leaves an empty buffer empty; DELETE empties the buffer; a label with no
    entry in the action table is appended as it is.  Buffer "AB" with
    BACKSPACE becomes "A". *)
Theorem action_dispatcher (g : Globals) (c : Classification) :
  should_emit g c = true ->
  let ch := predicted_character c in
  let buf := text_buffer g in
  let g' := update_text_buffer g c in
  (ACTION_GESTURES !! ch = Some "SPACE" ->
     text_buffer g' = buf ++ [" "] /\
     get_text_buffer g' = (get_text_buffer g +:+ " ")%string) /\
  (ACTION_GESTURES !! ch = Some "BACKSPACE" ->
     (buf = [] -> text_buffer g' = []) /\
     (forall l x, buf = l ++ [x] -> text_buffer g' = l) /\
     (buf = ["A"; "B"] -> get_text_buffer g' = "A")) /\
  (ACTION_GESTURES !! ch = Some "DELETE" -> text_buffer g' = []) /\
  (ACTION_GESTURES !! ch = None ->
     text_buffer g' = buf ++ [ch] /\
     get_text_buffer g' = (get_text_buffer g +:+ ch)%string).
Proof.
  intros He ch buf g'. unfold g'.
  rewrite (update_text_buffer_emit g c He). unfold get_text_buffer.
  cbn [text_buffer]. fold ch buf. unfold dispatch.
  split; [|split; [|split]]; intros ->; cbn.
  - split; [done|]. apply join_snoc.
  - split; [by intros ->|]. split.
    + intros l x ->. destruct (l ++ [x]) eqn:E.
      * by destruct l.
      * rewrite <- E. apply removelast_snoc.
    + by intros ->.
  - done.
  - split; [done|]. apply join_snoc.
Qed.

(** ** Debounce responsiveness *)

(** C2 -- Debounce responsiveness: while label [A] is held, for any count of
    frames since its acceptance, a processed frame whose accepted label is a
    different [B] emits [B] at once: one notification for [B], the held
    label becomes [B] and the counter restarts at 0. *)
Theorem debounce_responsiveness (g : Globals) (m : Model) (A B : string)
    (n : nat) (r : Results) :
  model g = Some m ->
  last_predicted_character g = Some A ->
  frames_since_last_char g = n ->
  A <> B ->
  shows m B r = true ->
  let g' := (process_frame g r).1 in
  last_predicted_character g' = Some B /\
  frames_since_last_char g' = 0 /\
  emissions g [r] = [[B]] /\
  text_buffer g' = dispatch (ACTION_GESTURES !! B) B (text_buffer g).
Proof.
  intros Hm Hl _ Hne Hs g'.
  pose proof (process_frame_shows g m B r Hm Hs) as [_ H].
  pose proof (emissions_shows g m B r Hm Hs) as He.
  cbn zeta in H. rewrite Hl in H, He.
  rewrite bool_decide_eq_true_2 in H, He by congruence.
  cbn [orb] in H, He. by destruct H as (H1 & H2 & H3 & _).
Qed.

(** ** The feature builder contract *)

Lemma update_text_buffer_model_calls (g : Globals) (c : Classification) :
  model_calls (trace (update_text_buffer g c)) = model_calls (trace g).
Proof.
  destruct (should_emit g c) eqn:E.
  - rewrite (update_text_buffer_emit g c E). cbn [trace].
    rewrite model_calls_app. cbn. by rewrite app_nil_r.
  - by rewrite (update_text_buffer_hold g c E).
Qed.

Lemma process_frame_no_hands (g : Globals) (r : Results) :
  multi_hand_landmarks r = [] -> process_frame g r = (g, RetNone) \/
  process_frame g r = (g, RetMessage "Model not loaded").
Proof.
  intros Hr. unfold process_frame, build_features. rewrite Hr.
  destruct (model g); [by left|by right].
Qed.

(** The order of two hands, read off their handedness labels. *)
Lemma sort_key_order (l1 l2 : option string) (h1 h2 : list Landmark)
    {A} (x y : A) :
  (if sort_key (l1, h1) <=? sort_key (l2, h2) then x else y)
  = (if bool_decide (l1 = Some "Left") then x
     else if bool_decide (l2 = Some "Left") then y
     else if bool_decide (l1 = Some "Right") then x
     else if bool_decide (l2 = Some "Right") then y
     else x).
Proof.
  unfold sort_key. cbn [fst].
  destruct l1 as [s1|], l2 as [s2|];
    repeat match goal with
           | |- context [String.eqb ?s ?t] =>
               destruct (String.eqb_spec s t); subst
           end;
    repeat case_bool_decide; try congruence; reflexivity.
Qed.

(** C4 -- Feature builder contract: on hand observations of 21 landmarks
    each, no feature vector is built (and the classifier is not called)
    exactly when no hand was observed, and [process_frame] then returns
    [(None, None)] with the globals untouched; with one or two hands the
    vector has 84 entries, is handed to the classifier, and the frame
    returns the classification; the vector is the first hand's block
    followed by the second's, or by 42 zeros when there is one hand; of two
    hands the one labelled "Left" comes first, otherwise the one labelled
    "Right", otherwise the one detected first; a block is the sequence of
    pairs [(x - min_x, y - min_y)] of the hand, where [min_x] and [min_y]
    are coordinates of the hand and, NaN apart, the least ones. *)
Theorem feature_builder_contract (r : Results) :
  valid_hands r ->
  ((forall data, build_features r <> Features data)
   <-> multi_hand_landmarks r = []) /\
  (multi_hand_landmarks r = [] ->
   build_features r = NoHands /\
   forall g, process_frame g r
             = (g, match model g with
                   | Some _ => RetNone
                   | None => RetMessage "Model not loaded"
                   end)) /\
  (multi_hand_landmarks r <> [] ->
   exists data,
     build_features r = Features data /\ length data = 84 /\
     forall g m, model g = Some m ->
       model_calls (trace (process_frame g r).1)
       = model_calls (trace g) ++ [data] /\
       (process_frame g r).2
       = RetPrediction (predicted_character (classify m data))
                       (proba (classify m data))) /\
  (forall h, multi_hand_landmarks r = [h] ->
   exists b, hand_feats h = Some b /\
             build_features r = Features (b ++ replicate 42 0%float)) /\
  (forall h1 h2, multi_hand_landmarks r = [h1; h2] ->
   exists b1 b2,
     hand_feats h1 = Some b1 /\ hand_feats h2 = Some b2 /\
     build_features r
     = Features
         (if bool_decide (handedness_label r 0 = Some "Left") then b1 ++ b2
          else if bool_decide (handedness_label r 1 = Some "Left")
               then b2 ++ b1
          else if bool_decide (handedness_label r 0 = Some "Right")
               then b1 ++ b2
          else if bool_decide (handedness_label r 1 = Some "Right")
               then b2 ++ b1
          else b1 ++ b2)) /\
  (forall h b, h ∈ multi_hand_landmarks r -> hand_feats h = Some b ->
   length b = 42 /\
   exists min_x min_y,
     In min_x (map lm_x h) /\ In min_y (map lm_y h) /\
     (Forall (fun x => PrimFloat.is_nan x = false) (map lm_x h) ->
      Forall (fun x => PrimFloat.leb min_x x = true) (map lm_x h)) /\
     (Forall (fun y => PrimFloat.is_nan y = false) (map lm_y h) ->
      Forall (fun y => PrimFloat.leb min_y y = true) (map lm_y h)) /\
     b = flat_map (fun lm => [PrimFloat.sub (lm_x lm) min_x;
                              PrimFloat.sub (lm_y lm) min_y]) h).
Proof.
  intros Hv. split; [|split; [|split; [|split; [|split]]]].
  - split.
    + intros Hno. destruct (multi_hand_landmarks r) eqn:E; [done|].
      destruct (build_features_valid r Hv) as (data & Hd & _);
        [by rewrite E|]. by destruct (Hno data).
    + intros E data. unfold build_features. by rewrite E.
  - intros E. split; [unfold build_features; by rewrite E|].
    intros g. unfold process_frame, build_features. rewrite E.
    by destruct (model g).
  - intros Hne. destruct (build_features_valid r Hv Hne) as (data & Hd & Hl).
    exists data. split; [done|]. split; [done|]. intros g m Hm.
    rewrite (process_frame_processed g m r data (classify m data) Hm).
    + cbn [fst snd]. split; [|done].
      rewrite update_text_buffer_model_calls. cbn [trace effect].
      by rewrite model_calls_app.
    + unfold processed. by rewrite Hd, Hl.
  - intros h E. apply (build_features_one r h E).
    unfold valid_hands in Hv. rewrite E in Hv. by apply Forall_cons in Hv as [? _].
  - intros h1 h2 E. unfold valid_hands in Hv. rewrite E in Hv.
    apply Forall_cons in Hv as [H1 Hv]. apply Forall_cons in Hv as [H2 _].
    destruct (build_features_two r h1 h2 E H1 H2) as (b1 & b2 & Hb1 & Hb2 & Hf).
    exists b1, b2. split; [done|]. split; [done|].
    by rewrite Hf, sort_key_order.
  - intros h b Hin Hb. split; [|by apply hand_feats_shape].
    unfold valid_hands in Hv. rewrite Forall_forall in Hv.
    destruct (hand_feats_valid h (Hv h Hin)) as (b' & Hb' & Hl). congruence.
Qed.

(** ** Notifications *)

Lemma zip_map_pair {A B C} (f : A -> B) (g : A -> C) (l : list A) :
  zip (map f l) (map g l) = map (fun x => (f x, g x)) l.
Proof. induction l as [|x l IH]; [done|]. cbn. by rewrite <- IH. Qed.

Lemma nth_not_nan (v : list float) (i : nat) :
  Forall (fun p => PrimFloat.is_nan p = false) v ->
  PrimFloat.is_nan (nth i v 0%float) = false.
Proof.
  intros Hv. revert i. induction Hv as [|x v Hx _ IH]; intros [|i]; cbn; auto.
Qed.

Lemma np_lt_leb (a b : float) :
  PrimFloat.is_nan a = false -> PrimFloat.is_nan b = false ->
  np_lt a b = false -> PrimFloat.leb b a = true.
Proof.
  intros Ha Hb. unfold np_lt. intros H. apply orb_false_iff in H as [H _].
  by apply FloatFacts.not_ltb_leb.
Qed.

Lemma StronglySorted_reverse {A} (R : A -> A -> Prop) (l : list A) :
  StronglySorted R l -> StronglySorted (fun x y => R y x) (reverse l).
Proof.
  induction 1 as [|x l Hl IH Hx]; [constructor|].
  rewrite reverse_cons. apply StronglySorted_app. split; [|split].
  - intros y z Hy Hz. apply list_elem_of_singleton in Hz as ->.
    rewrite elem_of_reverse in Hy. rewrite Forall_forall in Hx.
    exact (Hx y Hy).
  - exact IH.
  - repeat constructor.
Qed.

Lemma StronglySorted_weaken {A} (R R' : A -> A -> Prop) (l : list A) :
  (forall x y, R x y -> R' x y) -> StronglySorted R l -> StronglySorted R' l.
Proof.
  intros HR. induction 1 as [|x l Hl IH Hx]; constructor; [done|].
  eapply Forall_impl; [exact Hx|]. intros y. apply HR.
Qed.

Lemma top3_entries (c : Classification) (pv : list float) :
  argsort_contract np_argsort -> proba_vec c = Some pv ->
  exists idxs : list nat,
    top3 c = map (fun idx => (default ("?" +:+ pretty idx)
                                      (labels_dict !! Z.of_nat idx),
                              nth idx pv 0%float)) idxs /\
    length idxs = min 3 (length pv) /\
    NoDup idxs /\
    Forall (fun idx => idx < length pv) idxs /\
    (Forall (fun p => PrimFloat.is_nan p = false) pv ->
     StronglySorted (fun i j => PrimFloat.leb (nth j pv 0%float)
                                              (nth i pv 0%float) = true) idxs /\
     forall i j, i ∈ idxs -> j < length pv -> j ∉ idxs ->
       PrimFloat.leb (nth j pv 0%float) (nth i pv 0%float) = true).
Proof.
  intros Hc Hpv. destruct (Hc pv) as [Hperm Hsorted].
  exists (reverse (py_last_n 3 (np_argsort pv))).
  unfold top3. rewrite Hpv. cbn zeta.
  split; [apply zip_map_pair|].
  assert (Hlen : length (np_argsort pv) = length pv).
  { by rewrite (Permutation_length Hperm), length_seq. }
  unfold py_last_n.
  set (a := np_argsort pv) in *. set (k := length a - 3).
  assert (Ha : a = take k a ++ drop k a) by (by rewrite take_drop).
  assert (Hnd : NoDup a) by (rewrite Hperm; apply NoDup_seq).
  assert (Hin : forall i, i ∈ a <-> i < length pv).
  { intros i. rewrite Hperm, elem_of_seq. lia. }
  split; [rewrite length_reverse, length_drop; lia|].
  split.
  { rewrite Ha in Hnd. apply NoDup_app in Hnd as (_ & _ & Hnd).
    by rewrite reverse_Permutation. }
  split.
  { apply Forall_forall. intros i Hi. rewrite elem_of_reverse in Hi.
    apply Hin. rewrite Ha. apply elem_of_app. by right. }
  intros Hnan. split.
  - rewrite Ha in Hsorted. apply StronglySorted_app_1_r in Hsorted.
    apply StronglySorted_reverse in Hsorted.
    eapply StronglySorted_weaken; [|exact Hsorted].
    intros i j Hij. cbn beta in Hij.
    apply np_lt_leb; [by apply nth_not_nan..|done].
  - intros i j Hi Hj Hnj. rewrite elem_of_reverse in Hi.
    rewrite elem_of_reverse in Hnj.
    assert (Hjt : j ∈ take k a).
    { apply Hin in Hj. rewrite Ha in Hj.
      apply elem_of_app in Hj as [Hj|Hj]; [done|by destruct Hnj]. }
    rewrite Ha in Hsorted.
    pose proof (StronglySorted_app_1_elem_of _ _ _ _ _ Hsorted Hjt Hi) as Hji.
    apply np_lt_leb; [by apply nth_not_nan..|done].
Qed.

Lemma top3_length (c : Classification) : length (top3 c) <= 3.
Proof.
  unfold top3. destruct (proba_vec c) as [v|]; [|cbn; lia].
  rewrite length_zip_with, !length_map, length_reverse.
  unfold py_last_n. rewrite length_drop. lia.
Qed.

Lemma processed_proba_vec (m : Model) (r : Results) (v : list float)
    (c : Classification) :
  processed m r = Some (v, c) ->
  proba_vec c = match m with
                | ProbaModel predict_proba => predict_proba v
                | HardModel _ => None
                end.
Proof.
  unfold processed. destruct (build_features r) as [| |data]; try done.
  destruct (length data =? 84); [|done]. intros [= <- <-].
  destruct m as [f|f]; cbn [classify].
  - destruct (f data) as [pv|]; [|done].
    by destruct (np_argmax pv), (np_max pv).
  - by destruct (f data).
Qed.

(** C8 -- Emission notification: a processed frame whose label is emitted
    publishes exactly one [sign_detected] event, right after the classifier
    call, carrying the label, its confidence, the buffer after the edit as a
    single string, the resolved action and the top-3 list; a frame whose
    label is not emitted publishes none.  The top-3 list is read off the
    probability vector the model returned for the frame: whenever
    [np.argsort] keeps numpy's contract it lists three different classes of
    the vector (all of them when there are fewer), each as the label of its
    index ("?" and the index outside the label table) with the probability
    at that index, and, NaN apart, in descending order of probability, no
    class left out having a higher probability than a listed one; it is
    empty for a model without [predict_proba].  Emitting "H" then "I" from
    an empty buffer leaves "HI" and two events. *)
Theorem emission_notification (g : Globals) (m : Model) (r : Results)
    (v : list float) (c : Classification) :
  model g = Some m -> processed m r = Some (v, c) ->
  let g1 := effect (ModelCall v)
              (set_frames (frames_since_last_char g + 1) g) in
  let g' := (process_frame g r).1 in
  (should_emit g1 c = true ->
   trace g' = trace g ++
     [ModelCall v;
      SocketEmit (sign_detected
        {| character := predicted_character c;
           confidence := proba c;
           ev_text_buffer := get_text_buffer g';
           action := ACTION_GESTURES !! predicted_character c;
           ev_top3 := top3 c |})]) /\
  (should_emit g1 c = false ->
   notifications (trace g') = notifications (trace g)) /\
  proba_vec c = match m with
                | ProbaModel predict_proba => predict_proba v
                | HardModel _ => None
                end /\
  (proba_vec c = None -> top3 c = []) /\
  (argsort_contract np_argsort ->
   forall pv, proba_vec c = Some pv ->
   exists idxs : list nat,
     top3 c = map (fun idx => (default ("?" +:+ pretty idx)
                                       (labels_dict !! Z.of_nat idx),
                               nth idx pv 0%float)) idxs /\
     length idxs = min 3 (length pv) /\
     NoDup idxs /\
     Forall (fun idx => idx < length pv) idxs /\
     (Forall (fun p => PrimFloat.is_nan p = false) pv ->
      StronglySorted (fun i j => PrimFloat.leb (nth j pv 0%float)
                                               (nth i pv 0%float) = true)
                     idxs /\
      forall i j, i ∈ idxs -> j < length pv -> j ∉ idxs ->
        PrimFloat.leb (nth j pv 0%float) (nth i pv 0%float) = true)) /\
  length (top3 c) <= 3 /\
  (forall r2,
     text_buffer g = [] -> last_predicted_character g <> Some "H" ->
     shows m "H" r = true -> shows m "I" r2 = true ->
     let g2 := process_frames g [r; r2] in
     get_text_buffer g2 = "HI" /\
     exists p1 p2,
       notifications (trace g2) = notifications (trace g) ++ [p1; p2] /\
       character p1 = "H" /\ ev_text_buffer p1 = "H" /\
       character p2 = "I" /\ ev_text_buffer p2 = "HI").
Proof.
  intros Hm Hp g1 g'. unfold g'.
  rewrite (process_frame_processed g m r v c Hm Hp). cbn [fst]. fold g1.
  split; [|split; [|split; [|split; [|split; [|split]]]]].
  - intros He. rewrite (update_text_buffer_emit g1 c He).
    unfold get_text_buffer. cbn [trace text_buffer g1 effect set_frames].
    by rewrite <- app_assoc.
  - intros He. rewrite (update_text_buffer_hold g1 c He).
    cbn [trace g1 effect set_frames]. rewrite notifications_app. cbn.
    by rewrite app_nil_r.
  - by apply (processed_proba_vec m r).
  - intros Hn. unfold top3. by rewrite Hn.
  - intros Hc pv Hpv. by apply top3_entries.
  - apply top3_length.
  - intros r2 Hb Hl HH HI.
    pose proof (process_frame_shows g m "H" r Hm HH) as [Hm1 H1].
    cbn zeta in H1. rewrite bool_decide_eq_true_2 in H1 by congruence.
    cbn [orb] in H1. destruct H1 as (Hl1 & _ & Hb1 & p1 & Hc1 & Ht1 & Hn1).
    pose proof (process_frame_shows _ m "I" r2 Hm1 HI) as [_ H2].
    cbn zeta in H2. rewrite Hl1 in H2.
    rewrite bool_decide_eq_true_2 in H2 by discriminate.
    cbn [orb] in H2. destruct H2 as (_ & _ & Hb2 & p2 & Hc2 & Ht2 & Hn2).
    change (process_frames g [r; r2])
      with (process_frame (process_frame g r).1 r2).1.
    rewrite Hb in Hb1. unfold get_text_buffer in *.
    rewrite Hb1 in Hb2, Ht1. rewrite Hb2 in Ht2 |- *.
    split; [reflexivity|]. exists p1, p2.
    rewrite Hn2, Hn1, <- app_assoc. done.
Qed.

(** ** Holding one label: the server and the script *)

(** C1 -- Debounce idempotence, on both detection loops.  From the initial
    state and on consecutive frames that show the same accepted label, the
    server emits the label once in four frames (on the first) and twice in
    six (on the first, and on the sixth, where the counter reads 5).
    [prediction.py] edits its buffer for the first frame only: after six
    frames the buffer is what one frame leaves, and the counter has reached
    the cooldown without a second emission. *)
Theorem held_label_frames (m : Model) (L : string) (rs : list Results) :
  Forall (fun r => shows m L r = true) rs ->
  (length rs = 4 -> emissions (initial (Some m)) rs = [[L]; []; []; []]) /\
  (length rs = 6 ->
   emissions (initial (Some m)) rs = [[L]; []; []; []; []; [L]] /\
   frames_since_last_char (process_frames (initial (Some m)) (take 5 rs)) + 1
   = repeat_cooldown_frames /\
   let s := PredictionScript.watch m PredictionScript.initial rs in
   PredictionScript.last_predicted_character s = Some L /\
   PredictionScript.frames_since_last_char s = repeat_cooldown_frames /\
   PredictionScript.text_buffer s = dispatch (ACTION_GESTURES !! L) L [] /\
   PredictionScript.text_buffer s
   = PredictionScript.text_buffer
       (PredictionScript.watch m PredictionScript.initial (take 1 rs))).
Proof.
  intros Hall. split; intros Hlen.
  - by apply (server_four_frames m L rs (initial (Some m))).
  - destruct (server_six_frames m L rs (initial (Some m))) as [He Hc];
      try done.
    split; [done|]. split; [done|].
    destruct rs as [|r rs]; [discriminate|]. injection Hlen as Hlen.
    destruct (ScriptFacts.watch_emits_once m L r rs PredictionScript.initial)
      as (Hb & Hl & Hf); [done|discriminate|].
    destruct (ScriptFacts.watch_emits_once m L r [] PredictionScript.initial)
      as (Hb1 & _); [|discriminate|].
    { apply Forall_cons in Hall as [? _]. by constructor. }
    cbn zeta. rewrite Hl, Hf, Hb, Hlen.
    change (take 1 (r :: rs)) with [r]. by rewrite Hb1.
Qed.

(** ** Starting detection *)

Lemma update_text_buffer_static (g : Globals) (c : Classification) :
  model (update_text_buffer g c) = model g /\
  is_detection_active (update_text_buffer g c) = is_detection_active g /\
  workers (update_text_buffer g c) = workers g.
Proof.
  destruct (should_emit g c) eqn:E.
  - by rewrite (update_text_buffer_emit g c E).
  - by rewrite (update_text_buffer_hold g c E).
Qed.

Lemma process_frame_static (g : Globals) (r : Results) :
  model (process_frame g r).1 = model g /\
  is_detection_active (process_frame g r).1 = is_detection_active g /\
  workers (process_frame g r).1 = workers g.
Proof.
  unfold process_frame. destruct (model g) as [m|] eqn:Hm; [|done].
  destruct (build_features r) as [| |data]; try done.
  destruct (length data =? 84); [|done]. cbn [fst].
  destruct (update_text_buffer_static
              (effect (ModelCall data)
                 (set_frames (frames_since_last_char g + 1) g))
              (classify m data)) as (-> & -> & ->).
  done.
Qed.

Lemma step_model (g : Globals) (a : Action) : model (step g a) = model g.
Proof.
  destruct a as [| | | |i opened|i frame| |]; cbn [step]; try done.
  - unfold start_detection.
    destruct (is_detection_active g); [done|].
    by destruct (model g) eqn:E.
  - destruct (workers g !! i) as [[]|]; try done.
    unfold detection_loop_open. by destruct opened.
  - destruct (workers g !! i) as [[]|]; try done.
    unfold detection_loop_iterate. destruct (is_detection_active g); [|done].
    destruct frame as [r|]; [|done]. apply process_frame_static.
Qed.

(** Detection is only ever switched on with a model in place. *)
Lemma step_active (g : Globals) (a : Action) :
  (is_detection_active g = true -> model g <> None) ->
  is_detection_active (step g a) = true -> model (step g a) <> None.
Proof.
  intros Hinv. rewrite step_model.
  destruct a as [| | | |i opened|i frame| |]; cbn [step]; try exact Hinv.
  - unfold start_detection.
    destruct (is_detection_active g) eqn:Ha; [by intros _; apply Hinv|].
    destruct (model g) eqn:E; cbn; [done|]. rewrite Ha. discriminate.
  - discriminate.
  - destruct (workers g !! i) as [[]|]; try exact Hinv.
    unfold detection_loop_open. destruct opened; exact Hinv.
  - destruct (workers g !! i) as [[]|]; try exact Hinv.
    unfold detection_loop_iterate. destruct (is_detection_active g) eqn:Ha.
    + destruct frame as [r|]; [|intros _; by apply Hinv].
      intros _. by apply Hinv.
    + intros H. cbn in H. congruence.
Qed.

Lemma reachable_model (m : option Model) (g : Globals) :
  reachable m g ->
  model g = m /\ (is_detection_active g = true -> m <> None).
Proof.
  induction 1 as [|g a _ [IHm IHa]]; [done|].
  split; [by rewrite step_model|].
  intros Ha. rewrite <- IHm, <- (step_model g a).
  apply step_active; [|done]. by rewrite IHm.
Qed.



(** C9 -- A successful [start_detection] empties the text buffer, and does
    so before the worker thread is started: the thread is spawned from a
    state whose buffer is already empty, so nothing typed in an earlier
    session is left for the next one. *)
Theorem start_detection_resets_buffer (g g' : Globals) (resp : Response) :
  start_detection g = (g', resp) -> success resp = true ->
  text_buffer g' = [] /\ get_text_buffer g' = "" /\
  is_detection_active g' = true /\
  exists g2, text_buffer g2 = [] /\ g' = spawn_worker g2 /\
             trace g' = trace g ++ [ThreadStart] /\
             workers g' = workers g ++ [AtOpen].
Proof.
  unfold start_detection.
  destruct (is_detection_active g); [by intros [= <- <-]|].
  destruct (model g); [|by intros [= <- <-]].
  intros [= <- <-] _.
  split; [done|]. split; [done|]. split; [done|].
  exists (set_text_buffer [] (set_active true g)). by repeat split.
Qed.

(** ** Letters that are read as actions *)

Lemma contains_char_app (a : Ascii.ascii) (s t : string) :
  contains_char a (s +:+ t) = contains_char a s || contains_char a t.
Proof.
  induction s as [|b s IH]; [done|].
  rewrite string_app_cons. cbn [contains_char]. by rewrite IH, orb_assoc.
Qed.

Lemma sbd_free_app (s t : string) :
  sbd_free (s +:+ t) = sbd_free s && sbd_free t.
Proof.
  unfold sbd_free. rewrite !contains_char_app.
  by destruct (contains_char "S"%char s), (contains_char "B"%char s),
    (contains_char "D"%char s), (contains_char "S"%char t), (contains_char "B"%char t),
    (contains_char "D"%char t).
Qed.

Lemma sbd_free_join (l : list string) :
  sbd_free (join l) = forallb sbd_free l.
Proof.
  induction l as [|s l IH]; [done|].
  by rewrite join_cons, sbd_free_app, IH.
Qed.

Lemma forallb_removelast {A} (f : A -> bool) (l : list A) :
  forallb f l = true -> forallb f (removelast l) = true.
Proof.
  induction l as [|x [|y l] IH]; [done|done|].
  cbn [removelast forallb] in *. intros H.
  apply andb_true_iff in H as [-> H]. by apply IH.
Qed.

Lemma literal_labels_sbd_free (z : Z) (ch : string) :
  labels_dict !! z = Some ch -> is_literal ch = true -> sbd_free ch = true.
Proof.
  intros Hz. apply elem_of_list_to_map_2 in Hz.
  assert (H : forallb (fun p : Z * string => implb (is_literal p.2) (sbd_free p.2))
                      labels_items = true) by (by vm_compute).
  rewrite forallb_forall in H. apply list_elem_of_In in Hz.
  specialize (H _ Hz). cbn in H. intros E. by rewrite E in H.
Qed.

Lemma classify_label (m : Model) (v : list float) :
  predicted_character (classify m v) = "Unknown"
  \/ exists z, labels_dict !! z = Some (predicted_character (classify m v)).
Proof.
  assert (Hl : forall z, label_of z = "Unknown"
                         \/ exists z', labels_dict !! z' = Some (label_of z)).
  { intros z. unfold label_of.
    destruct (labels_dict !! z) eqn:E; [right; by exists z|by left]. }
  unfold classify. destruct m as [f|f].
  - destruct (f v) as [[|x l]|]; cbn [predicted_character];
      try (by left); apply Hl.
  - destruct (f v) as [z|]; cbn [predicted_character];
      try (by left); apply Hl.
Qed.

Lemma dispatch_sbd_free (ch : string) (buf : list string) :
  forallb sbd_free buf = true ->
  (is_literal ch = true -> sbd_free ch = true) ->
  forallb sbd_free (dispatch (ACTION_GESTURES !! ch) ch buf) = true.
Proof.
  intros Hb Hch. unfold dispatch. unfold is_literal in Hch.
  destruct (bool_decide (ACTION_GESTURES !! ch = Some "SPACE")).
  { rewrite forallb_app, Hb. reflexivity. }
  destruct (bool_decide (ACTION_GESTURES !! ch = Some "BACKSPACE")).
  { destruct buf; [done|]. by apply forallb_removelast. }
  destruct (bool_decide (ACTION_GESTURES !! ch = Some "DELETE")); [done|].
  rewrite forallb_app, Hb. cbn. by rewrite Hch.
Qed.

Lemma update_text_buffer_sbd_free (g : Globals) (m : Model) (v : list float) :
  forallb sbd_free (text_buffer g) = true ->
  forallb sbd_free (text_buffer (update_text_buffer g (classify m v))) = true.
Proof.
  intros Hb. destruct (should_emit g (classify m v)) eqn:E.
  - rewrite (update_text_buffer_emit g _ E). cbn [text_buffer].
    apply dispatch_sbd_free; [done|].
    unfold should_emit in E. apply andb_true_iff in E as [E _].
    apply andb_true_iff in E as [E _]. apply bool_decide_eq_true in E.
    destruct (classify_label m v) as [|[z Hz]]; [done|].
    by apply (literal_labels_sbd_free z).
  - by rewrite (update_text_buffer_hold g _ E).
Qed.

Lemma process_frame_sbd_free (g : Globals) (r : Results) :
  forallb sbd_free (text_buffer g) = true ->
  forallb sbd_free (text_buffer (process_frame g r).1) = true.
Proof.
  intros Hb. unfold process_frame. destruct (model g) as [m|]; [|done].
  destruct (build_features r) as [| |data]; try done.
  destruct (length data =? 84); [|done]. cbn [fst].
  by apply update_text_buffer_sbd_free.
Qed.

Lemma step_sbd_free (g : Globals) (a : Action) :
  forallb sbd_free (text_buffer g) = true ->
  forallb sbd_free (text_buffer (step g a)) = true.
Proof.
  intros Hb. destruct a as [| | | |i opened|i frame| |]; cbn [step]; try done.
  - unfold start_detection. destruct (is_detection_active g); [done|].
    by destruct (model g).
  - destruct (workers g !! i) as [[]|]; try done.
    unfold detection_loop_open. by destruct opened.
  - destruct (workers g !! i) as [[]|]; try done.
    unfold detection_loop_iterate. destruct (is_detection_active g); [|done].
    destruct frame as [r|]; [|done]. by apply process_frame_sbd_free.
Qed.

(** C10 -- Under the shipped action table the labels 'S', 'B' and 'D' (all
    three among the 35 labels) stand for SPACE, BACKSPACE and DELETE, so
    emitting them edits the buffer instead of appending the letter; hence no
    'S', 'B' or 'D' is ever in the text buffer: the buffer starts without
    them, every operation keeps it so, and every reachable buffer is free of
    them. *)
Theorem sbd_never_in_buffer (m : option Model) :
  (ACTION_GESTURES !! "S" = Some "SPACE" /\
   ACTION_GESTURES !! "B" = Some "BACKSPACE" /\
   ACTION_GESTURES !! "D" = Some "DELETE") /\
  (length labels_items = 35 /\
   labels_dict !! 27%Z = Some "S" /\ labels_dict !! 10%Z = Some "B" /\
   labels_dict !! 12%Z = Some "D") /\
  (forall buf,
     dispatch (ACTION_GESTURES !! "S") "S" buf = buf ++ [" "] /\
     dispatch (ACTION_GESTURES !! "B") "B" buf
     = match buf with [] => [] | _ :: _ => removelast buf end /\
     dispatch (ACTION_GESTURES !! "D") "D" buf = []) /\
  sbd_free (get_text_buffer (initial m)) = true /\
  (forall g a, sbd_free (get_text_buffer g) = true ->
               sbd_free (get_text_buffer (step g a)) = true) /\
  (forall g, reachable m g -> sbd_free (get_text_buffer g) = true).
Proof.
  split; [by vm_compute|]. split; [by vm_compute|].
  split; [intros buf; unfold dispatch; cbn; by destruct buf|].
  split; [done|].
  assert (Hstep : forall g a, sbd_free (get_text_buffer g) = true ->
                              sbd_free (get_text_buffer (step g a)) = true).
  { intros g a. unfold get_text_buffer. rewrite !sbd_free_join.
    apply step_sbd_free. }
  split; [exact Hstep|].
  induction 1 as [|g a _ IH]; [done|]. by apply Hstep.
Qed.

End Claims.

(** * Further properties *)

Section Coverage.
Context {numpy : Numpy}.

(** ** One frame, in general *)

Lemma process_frame_cases (g : Globals) (m : Model) (r : Results) :
  model g = Some m ->
  (processed m r = None /\ (process_frame g r).1 = g) \/
  (exists v c,
     processed m r = Some (v, c) /\
     (process_frame g r).1
     = update_text_buffer
         (effect (ModelCall v) (set_frames (frames_since_last_char g + 1) g))
         c).
Proof.
  intros Hm. destruct (processed m r) as [[v c]|] eqn:E.
  - right. exists v, c. split; [done|].
    by rewrite (process_frame_processed g m r v c Hm E).
  - left. split; [done|]. by apply (process_frame_skipped g m).
Qed.

Lemma emissions_one (g : Globals) (c : Classification) (v : list float) :
  let g1 := effect (ModelCall v)
              (set_frames (frames_since_last_char g + 1) g) in
  map character
    (drop (length (notifications (trace g)))
          (notifications (trace (update_text_buffer g1 c))))
  = if should_emit g1 c then [predicted_character c] else [].
Proof.
  cbn zeta. destruct (should_emit _ c) eqn:E.
  - rewrite (update_text_buffer_emit _ c E). cbn [trace effect set_frames].
    rewrite !notifications_app. cbn. rewrite app_nil_r.
    by rewrite drop_app_length.
  - rewrite (update_text_buffer_hold _ c E). cbn [trace effect set_frames].
    rewrite notifications_app. cbn. by rewrite app_nil_r, drop_all.
Qed.

(** X1 -- No label is emitted on two processed frames in a row: whatever the
    state and the two frames, if both emit, the labels differ. *)
Theorem never_twice_in_a_row (g : Globals) (m : Model) (r1 r2 : Results)
    (a b : string) :
  model g = Some m ->
  emissions g [r1; r2] = [[a]; [b]] -> a <> b.
Proof.
  intros Hm. cbn [emissions].
  destruct (process_frame_cases g m r1 Hm) as [[_ E1]|(v1 & c1 & _ & E1)].
  { rewrite E1, drop_all. discriminate. }
  rewrite E1, emissions_one.
  set (g1 := effect (ModelCall v1) _) in *.
  destruct (should_emit g1 c1) eqn:S1; [|discriminate].
  rewrite (update_text_buffer_emit g1 c1 S1).
  set (g2 := Build_Globals _ _ _ _ _ _ _).
  assert (Hm2 : model g2 = Some m) by done.
  destruct (process_frame_cases g2 m r2 Hm2) as [[_ E2]|(v2 & c2 & _ & E2)].
  { rewrite E2, drop_all. discriminate. }
  rewrite E2, emissions_one.
  destruct (should_emit _ c2) eqn:S2; [|discriminate].
  intros [= <- <-] Heq.
  unfold should_emit in S2. cbn in S2. rewrite Heq in S2.
  rewrite (bool_decide_eq_false_2 (Some _ <> Some _)) in S2
    by (intros X; by apply X).
  by rewrite andb_false_r in S2.
Qed.

(** ** Holding a label for any number of frames *)

Lemma hold_periodic (m : Model) (L : string) (rs : list Results)
    (g : Globals) :
  model g = Some m ->
  last_predicted_character g = Some L ->
  frames_since_last_char g < repeat_cooldown_frames ->
  Forall (fun r => shows m L r = true) rs ->
  emissions g rs
  = map (fun k => if (frames_since_last_char g + k + 1) mod 5 =? 0
                  then [L] else [])
        (seq 0 (length rs)).
Proof.
  unfold repeat_cooldown_frames.
  revert g. induction rs as [|r rs IH]; intros g Hm Hl Hc Hall; [done|].
  apply Forall_cons in Hall as [Hr Hall].
  pose proof (process_frame_shows g m L r Hm Hr) as [Hm' H].
  pose proof (emissions_shows g m L r Hm Hr) as He.
  cbn zeta in H. rewrite Hl in H, He.
  rewrite bool_decide_eq_false_2 in H, He by (intros X; by apply X).
  cbn [orb] in H, He. unfold repeat_cooldown_frames in H, He.
  change (emissions g (r :: rs))
    with (emissions g [r] ++ emissions (process_frame g r).1 rs).
  rewrite He. cbn [length seq map app]. rewrite <- seq_shift, map_map.
  set (c := frames_since_last_char g) in *.
  destruct (Nat.leb_spec 5 (c + 1)) as [Hge|Hlt].
  - assert (c = 4) as -> by lia.
    destruct H as (Hl' & Hf' & _).
    rewrite (IH _ Hm' Hl') by (rewrite ?Hf'; done || lia).
    rewrite Hf'. f_equal. apply map_ext. intros k.
    replace (4 + S k + 1) with (0 + k + 1 + 1 * 5) by lia.
    by rewrite Nat.Div0.mod_add.
  - destruct H as (Hl' & Hf' & _).
    rewrite (IH _ Hm' Hl') by (rewrite ?Hf'; done || lia).
    rewrite Hf'. f_equal.
    + destruct (Nat.eqb_spec ((c + 0 + 1) mod 5) 0) as [E|E]; [|done].
      rewrite Nat.Div0.mod_divides in E. destruct E as [q E]. lia.
    + apply map_ext. intros k.
      by replace (c + 1 + k + 1) with (c + S k + 1) by lia.
Qed.

(** X2 -- Holding one accepted label for any number of processed frames,
    after a different label or none: the label is emitted on frames 1, 6,
    11, ... (counting from 1) and on no other, that is [ceil(n / 5)] times
    in [n] frames. *)
Theorem held_label_periodic (m : Model) (L : string) (rs : list Results)
    (g : Globals) :
  model g = Some m -> last_predicted_character g <> Some L ->
  Forall (fun r => shows m L r = true) rs ->
  emissions g rs
  = map (fun k => if k mod 5 =? 0 then [L] else []) (seq 0 (length rs)) /\
  length (concat (emissions g rs)) = (length rs + 4) / 5.
Proof.
  intros Hm Hl Hall.
  assert (E : emissions g rs
              = map (fun k => if k mod 5 =? 0 then [L] else [])
                    (seq 0 (length rs))).
  { destruct rs as [|r rs]; [done|].
    apply Forall_cons in Hall as [Hr Hall].
    pose proof (process_frame_shows g m L r Hm Hr) as [Hm' H].
    pose proof (emissions_shows g m L r Hm Hr) as He.
    cbn zeta in H. rewrite bool_decide_eq_true_2 in H, He by congruence.
    cbn [orb] in H, He. destruct H as (Hl' & Hf' & _).
    change (emissions g (r :: rs))
      with (emissions g [r] ++ emissions (process_frame g r).1 rs).
    rewrite He, (hold_periodic m L rs _ Hm' Hl'
                   ltac:(rewrite Hf'; unfold repeat_cooldown_frames; lia)
                   Hall).
    rewrite Hf'. cbn [length seq map app]. f_equal.
    rewrite <- seq_shift, map_map. apply map_ext. intros k.
    by replace (0 + k + 1) with (S k) by lia. }
  split; [done|]. rewrite E. clear.
  generalize (length rs). intros n.
  set (count := fun n =>
         length (concat (map (fun k => if k mod 5 =? 0 then [L] else [])
                             (seq 0 n)))).
  assert (G : forall n, count n * 5 < n + 5 /\ n <= count n * 5).
  { clear. unfold count. induction n as [|n [IH1 IH2]]; [cbn; lia|].
    rewrite seq_S, map_app, concat_app, length_app.
    cbn [Nat.add map concat app length].
    destruct (Nat.eqb_spec (n mod 5) 0) as [E|E]; cbn [length app].
    - rewrite Nat.Div0.mod_divides in E. destruct E as [q ->]. lia.
    - set (t := length _) in *.
      assert (n <> t * 5).
      { intros E0. apply E. rewrite Nat.Div0.mod_divides. exists t. lia. }
      lia. }
  destruct (G n) as [G1 G2]. fold (count n).
  apply Nat.div_unique with (r := n + 4 - 5 * count n); lia.
Qed.

(** ** Frames that emit nothing *)

Lemma process_frames_no_hands (g : Globals) (gap : list Results) :
  Forall (fun r => multi_hand_landmarks r = []) gap ->
  process_frames g gap = g /\ emissions g gap = replicate (length gap) [].
Proof.
  revert g. induction gap as [|r gap IH]; intros g Hall; [done|].
  apply Forall_cons in Hall as [Hr Hall].
  assert (E : (process_frame g r).1 = g).
  { by destruct (process_frame_no_hands g r Hr) as [-> | ->]. }
  cbn [process_frames fold_left emissions]. rewrite E, drop_all.
  destruct (IH g Hall) as [E1 E2]. unfold process_frames in E1.
  by rewrite E1, E2.
Qed.

(** X3 -- Frames without a hand are invisible to the debounce: they change
    nothing, not even the cooldown counter, so whatever follows them behaves
    as if they had not been there.  In particular, taking the hand out of
    view and showing the held sign again does not type it again. *)
Theorem no_hand_frames_change_nothing (g : Globals) (gap rs : list Results) :
  Forall (fun r => multi_hand_landmarks r = []) gap ->
  process_frames g (gap ++ rs) = process_frames g rs /\
  emissions g (gap ++ rs) = replicate (length gap) [] ++ emissions g rs /\
  (forall m L r,
     rs = [r] -> model g = Some m -> last_predicted_character g = Some L ->
     frames_since_last_char g + 1 < repeat_cooldown_frames ->
     shows m L r = true ->
     concat (emissions g (gap ++ rs)) = []).
Proof.
  intros Hall. destruct (process_frames_no_hands g gap Hall) as [E1 E2].
  assert (E3 : emissions g (gap ++ rs)
               = replicate (length gap) [] ++ emissions g rs).
  { by rewrite emissions_app, E1, E2. }
  split; [by rewrite process_frames_app, E1|]. split; [done|].
  intros m L r -> Hm Hl Hc Hs. rewrite E3, concat_app.
  rewrite (emissions_shows g m L r Hm Hs), Hl.
  rewrite bool_decide_eq_false_2 by (intros X; by apply X).
  destruct (Nat.leb_spec repeat_cooldown_frames (frames_since_last_char g + 1));
    [lia|].
  cbn. rewrite app_nil_r. clear. induction (length gap); [done|]. done.
Qed.

Lemma process_frame_rejects (g : Globals) (m : Model) (r : Results) :
  model g = Some m -> rejects m r = true ->
  exists v,
    (process_frame g r).1
    = effect (ModelCall v) (set_frames (frames_since_last_char g + 1) g).
Proof.
  intros Hm Hr. unfold rejects in Hr.
  destruct (processed m r) as [[v c]|] eqn:E; [|discriminate].
  exists v. rewrite (process_frame_processed g m r v c Hm E). cbn [fst].
  apply update_text_buffer_hold. rewrite should_emit_accepted.
  apply negb_true_iff in Hr. by rewrite Hr.
Qed.

Lemma process_frames_rejects (m : Model) (gap : list Results) (g : Globals) :
  model g = Some m -> Forall (fun r => rejects m r = true) gap ->
  let g' := process_frames g gap in
  model g' = Some m /\
  text_buffer g' = text_buffer g /\
  last_predicted_character g' = last_predicted_character g /\
  frames_since_last_char g' = frames_since_last_char g + length gap /\
  notifications (trace g') = notifications (trace g) /\
  emissions g gap = replicate (length gap) [].
Proof.
  revert g. induction gap as [|r gap IH]; intros g Hm Hall; cbn zeta.
  - cbn. by rewrite Nat.add_0_r.
  - apply Forall_cons in Hall as [Hr Hall].
    destruct (process_frame_rejects g m r Hm Hr) as [v E].
    cbn [process_frames fold_left emissions]. rewrite E.
    set (g1 := effect (ModelCall v) _).
    destruct (IH g1 Hm Hall) as (M & B & La & Fr & No & Em).
    unfold process_frames in *. rewrite M, B, La, Fr, No, Em.
    cbn [g1 trace effect set_frames text_buffer last_predicted_character
         frames_since_last_char length replicate].
    rewrite notifications_app. cbn [notifications omap]. rewrite app_nil_r.
    rewrite drop_all. repeat split; try done. lia.
Qed.

(** X4 -- Processed frames whose classification is rejected ("Unknown", or a
    confidence below the threshold) leave the buffer, the held label and the
    notifications alone but advance the cooldown counter; the held label
    shown again after [k] such frames is emitted exactly when the counter
    has then reached the cooldown. *)
Theorem rejected_frames_advance_cooldown (g : Globals) (m : Model)
    (L : string) (gap : list Results) (r : Results) :
  model g = Some m -> last_predicted_character g = Some L ->
  Forall (fun r => rejects m r = true) gap -> shows m L r = true ->
  let g' := process_frames g gap in
  text_buffer g' = text_buffer g /\
  last_predicted_character g' = Some L /\
  frames_since_last_char g' = frames_since_last_char g + length gap /\
  notifications (trace g') = notifications (trace g) /\
  emissions g (gap ++ [r])
  = replicate (length gap) []
    ++ [if repeat_cooldown_frames
           <=? frames_since_last_char g + length gap + 1
        then [L] else []].
Proof.
  intros Hm Hl Hall Hs.
  destruct (process_frames_rejects m gap g Hm Hall)
    as (M & B & La & Fr & No & Em).
  cbn zeta. rewrite B, La, Fr, No, Hl. repeat split; try done.
  rewrite emissions_app, Em, (emissions_shows _ m L r M Hs), La, Hl, Fr.
  by rewrite bool_decide_eq_false_2 by (intros X; by apply X).
Qed.

(** ** What a restart and a clear leave behind *)

(** X5 -- Neither [start_detection] nor [clear_buffer] resets the debounce:
    the held label and the counter survive, so the label held when the buffer
    was emptied is not typed by the next frame that shows it while the
    counter is below the cooldown; the buffer stays empty. *)
Theorem restart_keeps_held_label (g : Globals) (m : Model) (L : string)
    (r : Results) :
  model g = Some m -> is_detection_active g = false ->
  last_predicted_character g = Some L ->
  frames_since_last_char g + 1 < repeat_cooldown_frames ->
  shows m L r = true ->
  (let g1 := (start_detection g).1 in
   text_buffer g1 = [] /\
   last_predicted_character g1 = Some L /\
   frames_since_last_char g1 = frames_since_last_char g /\
   emissions g1 [r] = [[]] /\
   text_buffer (process_frame g1 r).1 = []) /\
  (let g2 := (clear_buffer g).1 in
   text_buffer g2 = [] /\
   last_predicted_character g2 = Some L /\
   frames_since_last_char g2 = frames_since_last_char g /\
   emissions g2 [r] = [[]] /\
   text_buffer (process_frame g2 r).1 = []).
Proof.
  intros Hm Ha Hl Hc Hs.
  assert (G : forall g', model g' = Some m ->
                last_predicted_character g' = Some L ->
                frames_since_last_char g' = frames_since_last_char g ->
                text_buffer g' = [] ->
                emissions g' [r] = [[]] /\
                text_buffer (process_frame g' r).1 = []).
  { intros g' Hm' Hl' Hf' Hb'.
    pose proof (process_frame_shows g' m L r Hm' Hs) as [_ H].
    pose proof (emissions_shows g' m L r Hm' Hs) as He.
    cbn zeta in H. rewrite Hl', Hf' in H, He.
    rewrite bool_decide_eq_false_2 in H, He by (intros X; by apply X).
    destruct (Nat.leb_spec repeat_cooldown_frames (frames_since_last_char g + 1));
      [lia|].
    cbn [orb] in H, He. destruct H as (_ & _ & Hb & _).
    by rewrite He, Hb, Hb'. }
  split.
  - unfold start_detection. rewrite Ha, Hm. cbn [fst].
    destruct (G (spawn_worker (set_text_buffer [] (set_active true g))))
      as [E1 E2]; try done.
  - cbn [clear_buffer fst].
    destruct (G (set_text_buffer [] g)) as [E1 E2]; try done.
Qed.

(** ** Invariants of the reachable states *)

Lemma update_text_buffer_notifications (g : Globals) (m : Model)
    (v : list float) :
  Forall sound_event (notifications (trace g)) ->
  Forall sound_event
    (notifications (trace (update_text_buffer g (classify m v)))).
Proof.
  intros Hg. set (c := classify m v).
  destruct (should_emit g c) eqn:E.
  - rewrite (update_text_buffer_emit g c E). cbn [trace].
    rewrite notifications_app. apply Forall_app. split; [done|].
    cbn. constructor; [|constructor].
    unfold should_emit in E. apply andb_true_iff in E as [E _].
    apply andb_true_iff in E as [Eu Eg]. apply bool_decide_eq_true in Eu.
    unfold sound_event. cbn. repeat split; try done.
    + by destruct (classify_label m v) as [|[z Hz]]; [|exists z].
    + intros conf Hc. unfold passed_threshold in Eg. fold c in Hc.
      by rewrite Hc in Eg.
  - by rewrite (update_text_buffer_hold g c E).
Qed.

Lemma process_frame_notifications (g : Globals) (r : Results) :
  Forall sound_event (notifications (trace g)) ->
  Forall sound_event (notifications (trace (process_frame g r).1)).
Proof.
  intros Hg. unfold process_frame. destruct (model g) as [m|]; [|done].
  destruct (build_features r) as [| |data]; try done.
  destruct (length data =? 84); [|done]. cbn [fst].
  apply update_text_buffer_notifications. cbn [trace effect set_frames].
  rewrite notifications_app. cbn. by rewrite app_nil_r.
Qed.

Lemma step_notifications (g : Globals) (a : Action) :
  Forall sound_event (notifications (trace g)) ->
  Forall sound_event (notifications (trace (step g a))).
Proof.
  intros Hg.
  assert (Hx : forall e, (forall p, e <> SocketEmit (sign_detected p)) ->
             Forall sound_event (notifications (trace g ++ [e]))).
  { intros e He. rewrite notifications_app. apply Forall_app. split; [done|].
    destruct e as [v|[p|s|s]| | |];
      first [by destruct (He p) | cbn; constructor]. }
  destruct a as [| | | |i opened|i frame| |]; cbn [step]; try done.
  - unfold start_detection. destruct (is_detection_active g); [done|].
    destruct (model g); [|done]. cbn. by apply Hx.
  - destruct (workers g !! i) as [[]|]; try done.
    unfold detection_loop_open. destruct opened; cbn;
      rewrite <- app_assoc, notifications_app; cbn; by rewrite app_nil_r.
  - destruct (workers g !! i) as [[]|]; try done.
    unfold detection_loop_iterate, detection_loop_exit.
    destruct (is_detection_active g);
      [destruct frame as [r|]; [by apply process_frame_notifications|]|];
      cbn; rewrite <- app_assoc, notifications_app; cbn; by rewrite app_nil_r.
  - by apply Hx.
Qed.

(** X6 -- Every [sign_detected] event the server has published names one of
    the 35 labels, never "Unknown"; its action is the label's entry in the
    action table; and a confidence, when the event carries one, is at least
    the label's threshold. *)
Theorem published_events_sound (m : option Model) (g : Globals) :
  reachable m g -> Forall sound_event (notifications (trace g)).
Proof.
  induction 1 as [|g a _ IH]; [constructor|]. by apply step_notifications.
Qed.

Lemma string_length_app (s t : string) :
  String.length (s +:+ t) = String.length s + String.length t.
Proof.
  induction s as [|a s IH]; [done|].
  rewrite string_app_cons. cbn [String.length]. by rewrite IH.
Qed.

Lemma single_chars_join (l : list string) :
  single_chars l = true -> String.length (join l) = length l.
Proof.
  induction l as [|s l IH]; [done|]. cbn [single_chars forallb].
  intros H. apply andb_true_iff in H as [Hs Hl]. apply Nat.eqb_eq in Hs.
  rewrite join_cons, string_length_app, Hs. cbn [length]. by rewrite IH.
Qed.

Lemma labels_single_char (z : Z) (ch : string) :
  labels_dict !! z = Some ch -> String.length ch = 1.
Proof.
  intros Hz. apply elem_of_list_to_map_2 in Hz.
  assert (H : forallb (fun p : Z * string => String.length p.2 =? 1)
                      labels_items = true) by (by vm_compute).
  rewrite forallb_forall in H. apply list_elem_of_In in Hz.
  specialize (H _ Hz). by apply Nat.eqb_eq in H.
Qed.

Lemma dispatch_single_chars (a : option string) (ch : string)
    (buf : list string) :
  single_chars buf = true -> String.length ch = 1 ->
  single_chars (dispatch a ch buf) = true.
Proof.
  intros Hb Hch. unfold dispatch, single_chars in *.
  destruct (bool_decide (a = Some "SPACE")).
  { rewrite forallb_app, Hb. reflexivity. }
  destruct (bool_decide (a = Some "BACKSPACE")).
  { destruct buf; [done|]. by apply forallb_removelast. }
  destruct (bool_decide (a = Some "DELETE")); [done|].
  rewrite forallb_app, Hb. cbn. by rewrite Hch.
Qed.

Lemma process_frame_single_chars (g : Globals) (r : Results) :
  single_chars (text_buffer g) = true ->
  single_chars (text_buffer (process_frame g r).1) = true.
Proof.
  intros Hb. unfold process_frame. destruct (model g) as [m|]; [|done].
  destruct (build_features r) as [| |data]; try done.
  destruct (length data =? 84); [|done]. cbn [fst].
  set (g1 := effect _ _). set (c := classify m data).
  destruct (should_emit g1 c) eqn:E.
  - rewrite (update_text_buffer_emit g1 c E). cbn [text_buffer].
    apply dispatch_single_chars; [done|].
    unfold should_emit in E. apply andb_true_iff in E as [E _].
    apply andb_true_iff in E as [E _]. apply bool_decide_eq_true in E.
    destruct (classify_label m data) as [|[z Hz]]; [done|].
    by apply (labels_single_char z).
  - by rewrite (update_text_buffer_hold g1 c E).
Qed.

Lemma step_single_chars (g : Globals) (a : Action) :
  single_chars (text_buffer g) = true ->
  single_chars (text_buffer (step g a)) = true.
Proof.
  intros Hb. destruct a as [| | | |i opened|i frame| |]; cbn [step]; try done.
  - unfold start_detection. destruct (is_detection_active g); [done|].
    by destruct (model g).
  - destruct (workers g !! i) as [[]|]; try done.
    unfold detection_loop_open. by destruct opened.
  - destruct (workers g !! i) as [[]|]; try done.
    unfold detection_loop_iterate. destruct (is_detection_active g); [|done].
    destruct frame as [r|]; [|done]. by apply process_frame_single_chars.
Qed.

Lemma dispatch_backspace_snoc (ch y : string) (l : list string) :
  dispatch (Some "BACKSPACE") ch (l ++ [y]) = l.
Proof.
  unfold dispatch. cbn. destruct (l ++ [y]) eqn:E; [by destruct l|].
  rewrite <- E. apply removelast_last.
Qed.

(** X7 -- In every reachable state each entry of the text buffer is a single
    character, so the string the server reports has as many characters as
    the buffer has entries; a BACKSPACE on a non-empty buffer therefore
    shortens the reported string by exactly one character. *)
Theorem buffer_entries_are_characters (m : option Model) (g : Globals) :
  reachable m g ->
  single_chars (text_buffer g) = true /\
  String.length (get_text_buffer g) = length (text_buffer g) /\
  (text_buffer g <> [] ->
   String.length
     (join (dispatch (Some "BACKSPACE") "B" (text_buffer g))) + 1
   = String.length (get_text_buffer g)).
Proof.
  intros Hr.
  assert (H : single_chars (text_buffer g) = true).
  { induction Hr as [|g a _ IH]; [done|]. by apply step_single_chars. }
  split; [done|]. split; [by apply single_chars_join|].
  intros Hne. unfold get_text_buffer.
  rewrite !single_chars_join; [|done|by apply dispatch_single_chars].
  destruct (exists_last Hne) as (l' & y & ->).
  rewrite dispatch_backspace_snoc, length_app. cbn. lia.
Qed.

Lemma update_text_buffer_calls (g : Globals) (c : Classification) :
  Forall (fun v => length v = 84) (model_calls (trace g)) ->
  Forall (fun v => length v = 84)
         (model_calls (trace (update_text_buffer g c))).
Proof. by rewrite update_text_buffer_model_calls. Qed.

Lemma step_model_calls (g : Globals) (a : Action) :
  Forall (fun v => length v = 84) (model_calls (trace g)) ->
  Forall (fun v => length v = 84) (model_calls (trace (step g a))).
Proof.
  intros Hg.
  destruct a as [| | | |i opened|i frame| |]; cbn [step]; try done.
  - unfold start_detection. destruct (is_detection_active g); [done|].
    destruct (model g); [|done]. cbn. rewrite model_calls_app. cbn.
    by rewrite app_nil_r.
  - destruct (workers g !! i) as [[]|]; try done.
    unfold detection_loop_open. destruct opened; cbn;
      rewrite <- app_assoc, model_calls_app; cbn; by rewrite app_nil_r.
  - destruct (workers g !! i) as [[]|]; try done.
    unfold detection_loop_iterate, detection_loop_exit.
    destruct (is_detection_active g);
      [destruct frame as [r|]|];
      try (cbn; rewrite <- app_assoc, model_calls_app; cbn;
           by rewrite app_nil_r).
    unfold process_frame. destruct (model g) as [m|]; [|done].
    destruct (build_features r) as [| |data]; try done.
    destruct (Nat.eqb_spec (length data) 84) as [E|E]; [|done]. cbn [fst].
    apply update_text_buffer_calls. cbn [trace effect set_frames].
    rewrite model_calls_app. apply Forall_app. split; [done|].
    cbn. by repeat constructor.
  - unfold handle_connect. cbn. rewrite model_calls_app. cbn.
    by rewrite app_nil_r.
Qed.

(** X8 -- Whatever the hand-landmark model returns (any number of hands, with
    any number of landmarks each), the classifier is only ever called on
    vectors of exactly 84 features. *)
Theorem classifier_input_always_84 (m : option Model) (g : Globals) :
  reachable m g -> Forall (fun v => length v = 84) (model_calls (trace g)).
Proof.
  induction 1 as [|g a _ IH]; [constructor|]. by apply step_model_calls.
Qed.

(** ** Threads and cameras *)

Lemma process_frame_trace (g : Globals) (r : Results) :
  exists t, trace (process_frame g r).1 = trace g ++ t /\
            forallb frame_effect t = true.
Proof.
  unfold process_frame. destruct (model g) as [m|];
    [|exists []; by rewrite app_nil_r].
  destruct (build_features r) as [| |data];
    try (exists []; by rewrite app_nil_r).
  destruct (length data =? 84); [|exists []; by rewrite app_nil_r].
  cbn [fst]. set (g1 := effect _ _). set (c := classify m data).
  destruct (should_emit g1 c) eqn:E.
  - rewrite (update_text_buffer_emit g1 c E). cbn [trace g1 effect set_frames].
    rewrite <- app_assoc. by eexists.
  - rewrite (update_text_buffer_hold g1 c E). by eexists.
Qed.

Lemma count_effect_app (P : Effect -> bool) (t1 t2 : list Effect) :
  count_effect P (t1 ++ t2) = count_effect P t1 + count_effect P t2.
Proof. unfold count_effect. by rewrite List.filter_app, length_app. Qed.

Lemma count_effect_frame (P : Effect -> bool) (t : list Effect) :
  (forall e, frame_effect e = true -> P e = false) ->
  forallb frame_effect t = true -> count_effect P t = 0.
Proof.
  intros HP. induction t as [|e t IH]; [done|]. cbn [forallb].
  intros H. apply andb_true_iff in H as [He Ht].
  unfold count_effect in *. cbn [List.filter]. rewrite (HP e He). by apply IH.
Qed.

Lemma count_pc_insert (pc a b : WorkerPc) (ws : list WorkerPc) (i : nat) :
  ws !! i = Some a ->
  count_pc pc (<[i := b]> ws) + (if pc_eqb pc a then 1 else 0)
  = count_pc pc ws + (if pc_eqb pc b then 1 else 0).
Proof.
  revert i. induction ws as [|w ws IH]; intros [|i] Hi; try done.
  - injection Hi as ->. unfold count_pc. cbn.
    destruct (pc_eqb pc a), (pc_eqb pc b); simpl; lia.
  - cbn in Hi. specialize (IH i Hi). unfold count_pc in *.
    change (<[S i:=b]> (w :: ws)) with (w :: <[i:=b]> ws).
    cbn [List.filter].
    destruct (pc_eqb pc w), (pc_eqb pc a), (pc_eqb pc b);
      cbn [length] in *; lia.
Qed.

Lemma count_pc_app (pc : WorkerPc) (ws1 ws2 : list WorkerPc) :
  count_pc pc (ws1 ++ ws2) = count_pc pc ws1 + count_pc pc ws2.
Proof. unfold count_pc. by rewrite List.filter_app, length_app. Qed.

Ltac unfold_globals :=
  cbn [fst snd trace workers spawn_worker effect set_workers set_worker
       set_text_buffer set_active set_frames set_last handle_connect
       detection_loop_exit detection_loop_open].

Lemma step_camera_ledger (g : Globals) (a : Action) :
  camera_ledger g -> camera_ledger (step g a).
Proof.
  intros (H1 & H2 & H3).
  destruct a as [| | | |i opened|i frame| |]; cbn [step]; try done.
  - unfold start_detection. destruct (is_detection_active g); [done|].
    destruct (model g); [|done]. unfold camera_ledger. unfold_globals.
    rewrite !count_effect_app, !count_pc_app, length_app.
    change (count_effect is_thread_start [ThreadStart]) with 1.
    change (count_effect is_camera_open [ThreadStart]) with 0.
    change (count_effect is_camera_started [ThreadStart]) with 0.
    change (count_effect is_camera_release [ThreadStart]) with 0.
    change (count_pc AtOpen [AtOpen]) with 1.
    change (count_pc InLoop [AtOpen]) with 0.
    cbn [length]. lia.
  - destruct (workers g !! i) as [[]|] eqn:Hi; try done.
    pose proof (count_pc_insert AtOpen AtOpen InLoop _ _ Hi) as A1.
    pose proof (count_pc_insert InLoop AtOpen InLoop _ _ Hi) as A2.
    pose proof (count_pc_insert AtOpen AtOpen Exited _ _ Hi) as A3.
    pose proof (count_pc_insert InLoop AtOpen Exited _ _ Hi) as A4.
    cbn [pc_eqb] in A1, A2, A3, A4.
    unfold detection_loop_open, camera_ledger.
    destruct opened; unfold_globals;
      rewrite !count_effect_app, length_insert; unfold count_effect in *;
      cbn [List.filter is_thread_start is_camera_open is_camera_started
           is_camera_release String.eqb Ascii.eqb Bool.eqb andb length];
      lia.
  - destruct (workers g !! i) as [[]|] eqn:Hi; try done.
    pose proof (count_pc_insert AtOpen InLoop Exited _ _ Hi) as A1.
    pose proof (count_pc_insert InLoop InLoop Exited _ _ Hi) as A2.
    cbn [pc_eqb] in A1, A2.
    assert (Hexit : camera_ledger (detection_loop_exit i g)).
    { unfold detection_loop_exit, camera_ledger. unfold_globals.
      rewrite !count_effect_app, length_insert. unfold count_effect in *.
      cbn [List.filter is_thread_start is_camera_open is_camera_started
           is_camera_release String.eqb Ascii.eqb Bool.eqb andb length].
      lia. }
    unfold detection_loop_iterate. destruct (is_detection_active g); [|done].
    destruct frame as [r|]; [|done].
    destruct (process_frame_trace g r) as (t & Et & Ht).
    destruct (process_frame_static g r) as (_ & _ & Ew).
    unfold camera_ledger. rewrite Et, Ew, !count_effect_app.
    rewrite !(count_effect_frame _ t) by (done || by intros [|[]| | |]).
    lia.
  - unfold handle_connect, camera_ledger. unfold_globals.
    rewrite !count_effect_app. unfold count_effect in *.
    cbn [List.filter is_thread_start is_camera_open is_camera_started
         is_camera_release String.eqb Ascii.eqb Bool.eqb andb length].
    lia.
Qed.

(** X9 -- Threads and cameras add up in every reachable state: one thread
    was started per worker; every worker past its first step has opened the
    camera once; and every camera that opened successfully is either held by
    a worker still in its loop or has been released -- a failed open is
    never released, a successful one never twice. *)
Theorem cameras_accounted_for (m : option Model) (g : Globals) :
  reachable m g ->
  count_effect is_thread_start (trace g) = length (workers g) /\
  count_effect is_camera_open (trace g) + count_pc AtOpen (workers g)
  = length (workers g) /\
  count_effect is_camera_started (trace g)
  = count_pc InLoop (workers g) + count_effect is_camera_release (trace g).
Proof.
  induction 1 as [|g a _ IH]; [done|]. by apply step_camera_ledger.
Qed.

Lemma lookup_set_worker (i : nat) (a b : WorkerPc) (ws : list WorkerPc) :
  ws !! i = Some a -> <[i := b]> ws !! i = Some b.
Proof.
  intros Hi. apply list_lookup_insert_eq. by apply lookup_lt_Some in Hi.
Qed.

(** X10 -- A camera failure ends the worker but not the session flag: when a
    looping worker's read fails, or a new worker cannot open the camera, the
    worker returns while [is_detection_active] stays set, so a further
    [start_detection] is refused as "Detection already active" until
    [stop_detection] has been called; after it, the start is accepted. *)
Theorem camera_failure_leaves_session_active (g : Globals) (m : Model)
    (i : nat) (pc : WorkerPc) :
  model g = Some m -> is_detection_active g = true ->
  workers g !! i = Some pc -> pc <> Exited ->
  let a := match pc with
           | AtOpen => WorkerOpens i false
           | _ => WorkerIterates i None
           end in
  let g' := step g a in
  workers g' !! i = Some Exited /\
  is_detection_active g' = true /\
  text_buffer g' = text_buffer g /\
  start_detection g'
  = (g', {| success := false; message := "Detection already active" |}) /\
  (start_detection (stop_detection g').1).2
  = {| success := true; message := "Detection started" |}.
Proof.
  intros Hm Ha Hi Hpc. destruct pc; [| |done]; cbn zeta; cbn [step];
    rewrite Hi.
  - unfold detection_loop_open. unfold_globals.
    split; [by apply (lookup_set_worker i AtOpen)|].
    unfold start_detection, stop_detection. cbn. by rewrite Ha, Hm.
  - unfold detection_loop_iterate. rewrite Ha. unfold detection_loop_exit.
    unfold_globals. split; [by apply (lookup_set_worker i InLoop)|].
    unfold start_detection, stop_detection. cbn. by rewrite Ha, Hm.
Qed.

(** X11 -- Stopping is cooperative: after [stop_detection], the next pass of a
    looping worker through the loop test makes it leave without processing
    the frame it would have read; it releases the camera, publishes "Camera
    stopped", and leaves buffer and debounce state as they were. *)
Theorem stop_is_seen_at_next_poll (g : Globals) (i : nat)
    (frame : option Results) :
  workers g !! i = Some InLoop ->
  let g1 := (stop_detection g).1 in
  let g2 := step g1 (WorkerIterates i frame) in
  workers g2 !! i = Some Exited /\
  trace g2
  = trace g ++ [CameraRelease; SocketEmit (status "Camera stopped")] /\
  text_buffer g2 = text_buffer g /\
  last_predicted_character g2 = last_predicted_character g /\
  frames_since_last_char g2 = frames_since_last_char g /\
  step g2 (WorkerIterates i frame) = g2.
Proof.
  intros Hi. cbn zeta. cbn [stop_detection fst step]. unfold_globals.
  rewrite Hi. unfold detection_loop_iterate.
  cbn [is_detection_active set_active].
  unfold detection_loop_exit. unfold_globals.
  pose proof (lookup_set_worker i InLoop Exited _ Hi) as Hi'.
  split; [done|]. split; [by rewrite <- app_assoc|].
  split; [done|]. split; [done|]. split; [done|].
  cbn [step]. unfold_globals. by rewrite Hi'.
Qed.

(** X12 -- A stop that no worker has polled yet is undone by the next start:
    a worker still in its loop when [stop_detection] is followed at once by
    [start_detection] never sees the flag down, so it goes on processing
    frames beside the newly started worker, into the buffer the start has
    just emptied. *)
Theorem stop_then_start_keeps_old_worker (g : Globals) (m : Model) (i : nat)
    (r : Results) :
  model g = Some m -> workers g !! i = Some InLoop ->
  let g' := run g [CallStopDetection; CallStartDetection] in
  is_detection_active g' = true /\
  workers g' = workers g ++ [AtOpen] /\
  workers g' !! i = Some InLoop /\
  text_buffer g' = [] /\
  step g' (WorkerIterates i (Some r)) = (process_frame g' r).1 /\
  count_pc Exited (workers (step g' (WorkerOpens (length (workers g)) true)))
  = count_pc Exited (workers g) /\
  count_pc InLoop (workers (step g' (WorkerOpens (length (workers g)) true)))
  = count_pc InLoop (workers g) + 1.
Proof.
  intros Hm Hi. cbn zeta. cbn [run fold_left step stop_detection fst].
  unfold start_detection. cbn [is_detection_active set_active model].
  rewrite Hm. cbn [fst]. unfold_globals.
  assert (Hi' : (workers g ++ [AtOpen]) !! i = Some InLoop).
  { rewrite lookup_app_l; [done|]. by apply lookup_lt_Some in Hi. }
  assert (Hn : (workers g ++ [AtOpen]) !! length (workers g) = Some AtOpen).
  { by rewrite lookup_app_r, Nat.sub_diag. }
  split; [done|]. split; [done|]. split; [done|]. split; [done|].
  split.
  - cbn [step]. unfold_globals. rewrite Hi'. unfold detection_loop_iterate.
    done.
  - cbn [step]. unfold_globals. rewrite Hn. unfold detection_loop_open.
    unfold_globals.
    pose proof (count_pc_insert Exited AtOpen InLoop _ _ Hn) as A1.
    pose proof (count_pc_insert InLoop AtOpen InLoop _ _ Hn) as A2.
    cbn [pc_eqb] in A1, A2. rewrite !count_pc_app in A1, A2.
    change (count_pc Exited [AtOpen]) with 0 in A1.
    change (count_pc InLoop [AtOpen]) with 0 in A2. lia.
Qed.

(** ** Hands: order and size *)

Lemma sort_key_left (item : option string * list Landmark) :
  sort_key item = 0 <-> item.1 = Some "Left".
Proof.
  unfold sort_key. destruct item as [[l|] h]; cbn [fst]; [|done].
  destruct (String.eqb_spec l "Left") as [->|Hn]; [done|].
  split; [|by intros [= ->]].
  by destruct (String.eqb l "Right").
Qed.

Lemma py_sort_by_key_same_key {A} (key : A -> nat) (n : nat) (l : list A) :
  Forall (fun x => key x = n) l -> py_sort_by_key key l = l.
Proof.
  induction l as [|x l IH]; [done|]. intros H.
  apply Forall_cons in H as [Hx Hl].
  change (py_sort_by_key key (x :: l))
    with (insert_by_key key x (py_sort_by_key key l)).
  rewrite (IH Hl). destruct l as [|y l]; [done|].
  apply Forall_cons in Hl as [Hy _]. cbn [insert_by_key].
  by rewrite Hx, Hy, Nat.leb_refl.
Qed.

(** The first block of the vector is the first sorted hand's; the second
    block is the second sorted hand's, or 42 zeros. *)
Lemma build_features_head (r : Results)
    (p : option string * list Landmark)
    (rest : list (option string * list Landmark)) :
  valid_hands r -> sorted_hands r = p :: rest ->
  exists b tail,
    hand_feats p.2 = Some b /\ length b = 42 /\ length tail = 42 /\
    build_features r = Features (b ++ tail) /\
    match rest with
    | [] => tail = replicate 42 0%float
    | q :: _ => hand_feats q.2 = Some tail
    end.
Proof.
  intros Hv Hs.
  assert (Hall : Forall (fun p : option string * list Landmark =>
                           length p.2 = 21) (p :: rest)).
  { rewrite <- Hs. unfold sorted_hands. apply Forall_take.
    by apply sorted_paired_valid. }
  assert (Hlen : length (p :: rest) <= 2).
  { rewrite <- Hs. unfold sorted_hands. rewrite length_take. lia. }
  assert (Hne : multi_hand_landmarks r <> []).
  { intros E. unfold sorted_hands, paired in Hs. by rewrite E in Hs. }
  apply Forall_cons in Hall as [Hp Hrest].
  destruct (hand_feats_valid _ Hp) as (b & Hb & Hb42).
  unfold build_features. rewrite Hs.
  destruct (multi_hand_landmarks r) as [|h0 hs]; [done|].
  destruct p as [lp [|lm l]]; [discriminate|].
  destruct rest as [|q [|q' rest']]; [| |cbn in Hlen; lia].
  - exists b, (replicate 42 0%float). cbn [snd] in Hb.
    assert (Ho : omap (fun h : option string * list Landmark =>
                         hand_feats h.2) [(lp, lm :: l)] = [b])
      by (cbn -[hand_feats]; by rewrite Hb).
    cbn [flat_map map app snd]. rewrite Ho, length_replicate.
    repeat split; done.
  - apply Forall_cons in Hrest as [Hq _].
    destruct (hand_feats_valid _ Hq) as (bq & Hbq & Hbq42).
    exists b, bq. destruct q as [lq [|lm' l']]; [discriminate|].
    cbn [snd] in Hb, Hbq.
    assert (Ho : omap (fun h : option string * list Landmark =>
                         hand_feats h.2) [(lp, lm :: l); (lq, lm' :: l')]
                 = [b; bq])
      by (cbn -[hand_feats]; by rewrite Hb, Hbq).
    cbn [flat_map map app snd]. rewrite Ho.
    repeat split; done.
Qed.

(** X13 -- Order of the hands.  On hands of 21 landmarks: if some detected
    hand is labelled "Left", the first 42 entries of the feature vector are
    the block of a detected hand labelled "Left".  Without any handedness
    information the first block is the first detected hand's and the second
    block is the second detected hand's, or 42 zeros when there is none. *)
Theorem hand_order (r : Results) :
  valid_hands r ->
  (Some "Left" ∈ (paired r).*1 ->
   exists p b tail,
     p ∈ paired r /\ p.1 = Some "Left" /\ hand_feats p.2 = Some b /\
     length b = 42 /\ length tail = 42 /\
     build_features r = Features (b ++ tail)) /\
  (multi_handedness r = [] ->
   forall h1 hs, multi_hand_landmarks r = h1 :: hs ->
   exists b1 tail,
     hand_feats h1 = Some b1 /\ length b1 = 42 /\ length tail = 42 /\
     build_features r = Features (b1 ++ tail) /\
     match hs with
     | [] => tail = replicate 42 0%float
     | h2 :: _ => hand_feats h2 = Some tail
     end).
Proof.
  intros Hv. split.
  - intros Hin. apply list_elem_of_fmap in Hin as (q & Hq1 & Hq).
    pose proof (py_sort_by_key_perm sort_key (paired r)) as Hp.
    pose proof (py_sort_by_key_sorted sort_key (paired r)) as Hs.
    assert (Hhead : exists p rest, sorted_hands r = p :: rest /\
                                   p.1 = Some "Left" /\ p ∈ paired r).
    { unfold sorted_hands.
      destruct (py_sort_by_key sort_key (paired r)) as [|p l] eqn:E.
      { apply Permutation_nil_l in Hp. rewrite <- Hp in Hq.
        by apply elem_of_nil in Hq. }
      exists p, (take 1 l). split; [done|].
      assert (Hpin : p ∈ paired r) by (rewrite <- Hp; left).
      split; [|done]. apply sort_key_left.
      assert (Hq0 : sort_key q = 0) by (by apply sort_key_left).
      rewrite <- Hp in Hq. apply elem_of_cons in Hq as [->|Hq]; [done|].
      apply StronglySorted_inv in Hs as [_ Hall].
      rewrite Forall_forall in Hall. specialize (Hall q Hq). lia. }
    destruct Hhead as (p & rest & Hsorted & Hl & Hpin).
    destruct (build_features_head r p rest Hv Hsorted)
      as (b & tail & Hb & Hb42 & Ht42 & Hf & _).
    by exists p, b, tail.
  - intros Hh h1 hs Hr.
    assert (E : py_sort_by_key sort_key (paired r) = paired r).
    { apply (py_sort_by_key_same_key sort_key 2).
      unfold paired, handedness_label. rewrite Hh.
      generalize (multi_hand_landmarks r). intros l.
      assert (G : forall (k : nat),
                Forall (fun x : option string * list Landmark =>
                          sort_key x = 2)
                  (imap (fun idx hand =>
                           (match ([] : list (option string)) !! (k + idx)
                            with
                            | Some (Some l) => Some l
                            | _ => None
                            end, hand)) l)).
      { induction l as [|h l IH]; intros k; [constructor|].
        cbn [imap]. constructor; [done|].
        eapply Forall_impl; [|intros ? H; exact H].
        specialize (IH (S k)).
        erewrite imap_ext; [exact IH|].
        intros j x _. cbn. by rewrite Nat.add_succ_r. }
      exact (G 0). }
    assert (Hsorted : sorted_hands r
                      = (handedness_label r 0, h1)
                        :: take 1 (imap (fun idx hand =>
                                           (handedness_label r (S idx), hand))
                                        hs)).
    { unfold sorted_hands. rewrite E. unfold paired. by rewrite Hr. }
    destruct (build_features_head r _ _ Hv Hsorted)
      as (b & tail & Hb & Hb42 & Ht42 & Hf & Hrest).
    exists b, tail. split; [done|]. split; [done|]. split; [done|].
    split; [done|]. by destruct hs.
Qed.

End Coverage.

(** ** The reported confidence *)

Module FloatOrder.

(** Equal to [y], then compared with [z]. *)
Lemma SFcompare_Eq_trans (x y z : spec_float) (c : comparison) :
  SFcompare x y = Some Eq -> SFcompare y z = Some c ->
  SFcompare x z = Some c.
Proof.
  destruct x as [sx|sx| |sx mx ex], y as [sy|sy| |sy my ey],
    z as [sz|sz| |sz mz ez]; simpl;
    try discriminate; try done;
    try (destruct sx; discriminate); try (destruct sy; discriminate);
    try (destruct sx, sy; try discriminate; done).
  all: change (PosDef.Pos.compare_cont Eq) with Pos.compare.
  all: destruct sx, sy; try discriminate.
  all: destruct (Z.compare_spec ex ey); try discriminate;
    destruct (Pos.compare_spec mx my); try discriminate; by subst.
Qed.

Lemma leb_trans (a b c : float) :
  PrimFloat.leb a b = true -> PrimFloat.leb b c = true ->
  PrimFloat.leb a c = true.
Proof.
  rewrite !FloatAxioms.leb_spec. unfold SFleb. intros H1 H2.
  destruct (SFcompare (Prim2SF a) (Prim2SF b)) as [[]|] eqn:E1;
    try discriminate;
    destruct (SFcompare (Prim2SF b) (Prim2SF c)) as [[]|] eqn:E2;
    try discriminate.
  - by rewrite (SFcompare_Eq_trans _ _ _ _ E1 E2).
  - by rewrite (SFcompare_Eq_trans _ _ _ _ E1 E2).
  - rewrite (FloatFacts.SFcompare_Lt_le_trans _ _ _ E1); auto.
  - rewrite (FloatFacts.SFcompare_Lt_le_trans _ _ _ E1); auto.
Qed.

Lemma ltb_leb (a b : float) :
  PrimFloat.ltb a b = true -> PrimFloat.leb a b = true.
Proof.
  rewrite FloatAxioms.ltb_spec, FloatAxioms.leb_spec. unfold SFltb, SFleb.
  by destruct (SFcompare (Prim2SF a) (Prim2SF b)) as [[]|].
Qed.

Lemma leb_total (a b : float) :
  PrimFloat.is_nan a = false -> PrimFloat.is_nan b = false ->
  PrimFloat.leb b a = false -> PrimFloat.leb a b = true.
Proof.
  intros Ha Hb H. apply FloatFacts.not_ltb_leb; try done.
  destruct (PrimFloat.ltb b a) eqn:E; [|done].
  apply ltb_leb in E. congruence.
Qed.

End FloatOrder.

Section Further.
Context {numpy : Numpy}.

Lemma np_maximum_nan (l : list float) (a : float) :
  PrimFloat.is_nan a = true -> fold_left np_maximum l a = a.
Proof.
  intros Ha. induction l as [|x l IH]; [done|]. cbn [fold_left].
  unfold np_maximum at 2. by rewrite Ha, orb_true_r.
Qed.

(** The running maximum is the entry at the running arg-max. *)
Lemma argmax_from_max (pre l : list float) (mp : float) (best : nat) :
  pre !! best = Some mp ->
  (pre ++ l) !! argmax_from mp best (length pre) l
  = Some (fold_left np_maximum l mp).
Proof.
  revert pre mp best. induction l as [|x l IH]; intros pre mp best Hb.
  - cbn. rewrite app_nil_r. done.
  - cbn [argmax_from fold_left].
    destruct (PrimFloat.is_nan mp) eqn:En.
    + unfold np_maximum at 2. rewrite En, orb_true_r.
      rewrite (np_maximum_nan l mp En).
      apply lookup_app_l_Some. done.
    + unfold np_maximum at 2. rewrite En, orb_false_r.
      change (pre ++ x :: l) with (pre ++ [x] ++ l). rewrite app_assoc.
      replace (S (length pre)) with (length (pre ++ [x]))
        by (rewrite length_app; cbn; lia).
      destruct (PrimFloat.leb x mp); cbn [negb].
      * apply IH. by apply lookup_app_l_Some.
      * apply IH. rewrite lookup_app_r by lia.
        by rewrite Nat.sub_diag.
Qed.

Lemma np_max_upper_bound (l : list float) (a : float) :
  PrimFloat.is_nan a = false ->
  Forall (fun q => PrimFloat.is_nan q = false) l ->
  PrimFloat.leb a (fold_left np_maximum l a) = true /\
  Forall (fun q => PrimFloat.leb q (fold_left np_maximum l a) = true) l.
Proof.
  revert a. induction l as [|x l IH]; intros a Ha Hl.
  - split; [by apply FloatFacts.leb_refl|constructor].
  - apply Forall_cons in Hl as [Hx Hl]. cbn [fold_left].
    unfold np_maximum at 2 4. rewrite Ha, orb_false_r.
    destruct (PrimFloat.leb x a) eqn:E.
    + destruct (IH a Ha Hl) as [I1 I2]. split; [done|].
      constructor; [|done]. by apply (FloatOrder.leb_trans x a).
    + destruct (IH x Hx Hl) as [I1 I2]. split; [|by constructor].
      apply (FloatOrder.leb_trans a x); [|done].
      by apply FloatOrder.leb_total.
Qed.

(** X15 -- With a probabilistic model, the confidence that is gated and
    published is the probability the model gave to the very class that is
    reported: the entry of the probability vector at the arg-max index; and
    when no entry is a NaN it is the largest entry.  An empty vector gives
    "Unknown" without confidence. *)
Theorem confidence_is_label_probability
    (predict_proba : list float -> option (list float))
    (data_aux v : list float) :
  predict_proba data_aux = Some v ->
  let c := classify (ProbaModel predict_proba) data_aux in
  (v = [] -> predicted_character c = "Unknown" /\ proba c = None) /\
  (v <> [] ->
   exists k p,
     v !! k = Some p /\ proba c = Some p /\
     predicted_character c = label_of (Z.of_nat k) /\
     (Forall (fun q => PrimFloat.is_nan q = false) v ->
      Forall (fun q => PrimFloat.leb q p = true) v)).
Proof.
  intros Hv. cbn zeta. unfold classify. rewrite Hv.
  split; [by intros ->|]. intros Hne.
  destruct v as [|x l]; [done|]. cbn [np_argmax np_max].
  exists (argmax_from x 0 1 l), (fold_left np_maximum l x).
  split; [apply (argmax_from_max [x] l x 0 eq_refl)|].
  split; [done|]. split; [done|].
  intros Hn. apply Forall_cons in Hn as [Hx Hl].
  destruct (np_max_upper_bound l x Hx Hl) as [I1 I2]. by constructor.
Qed.

(** ** Loading the model *)

Lemma try_paths_first (fs : string -> Unpickled)
    (before : list string) (p : string) (after : list string)
    (entry : option Model) :
  forallb (fun q => not_loaded (fs q)) before = true ->
  fs p = Loaded entry ->
  try_paths fs (before ++ p :: after) = (entry, before ++ [p]).
Proof.
  intros Hb Hp. induction before as [|q before IH]; cbn [try_paths app].
  - by rewrite Hp.
  - cbn [forallb] in Hb. apply andb_true_iff in Hb as [Hq Hb].
    rewrite (IH Hb). by destruct (fs q).
Qed.

Lemma try_paths_none (fs : string -> Unpickled) (paths : list string) :
  forallb (fun q => not_loaded (fs q)) paths = true ->
  try_paths fs paths = (None, paths).
Proof.
  induction paths as [|q paths IH]; [done|]. cbn [forallb try_paths].
  intros H. apply andb_true_iff in H as [Hq Hb].
  rewrite (IH Hb). by destruct (fs q).
Qed.

(** X16 -- [_load_model] takes the first candidate that unpickles, in the
    order of the list, and opens no candidate after it; missing and
    unreadable files are passed over.  Its answer is that pickle's 'model'
    entry even when there is none, so such a pickle hides a good model at a
    later place.  When all four candidates fail the answer is [None].  With
    [None] for a model the server refuses every start. *)
Theorem load_model_first_match
    (os_path_join : string -> list string -> string) (here : string)
    (fs : string -> Unpickled) :
  let paths := candidate_paths os_path_join here in
  let res := _load_model os_path_join here fs in
  length paths = 4 /\
  (forall before p after entry,
     paths = before ++ p :: after ->
     forallb (fun q => not_loaded (fs q)) before = true ->
     fs p = Loaded entry ->
     res = (entry, before ++ [p])) /\
  (forallb (fun q => not_loaded (fs q)) paths = true -> res = (None, paths)) /\
  (res.1 = None ->
   forall g, reachable res.1 g ->
     start_detection g
     = (g, {| success := false; message := "Model not loaded" |})).
Proof.
  cbn zeta. split; [done|]. split; [|split].
  - intros before p after entry E Hb Hp. unfold _load_model. rewrite E.
    by apply try_paths_first.
  - apply try_paths_none.
  - intros E g Hr. rewrite E in Hr.
    destruct (reachable_model None g Hr) as [Hm Ha].
    unfold start_detection.
    destruct (is_detection_active g); [by destruct Ha|]. by rewrite Hm.
Qed.

(** ** Gestures that undo each other *)


End Further.

(** ** The script's keyboard and loop *)

Module ScriptLoop.
Import PredictionScript.

Lemma update_text_buffer_beta (s : State) (c : Classification) :
  BRIGHTNESS_BETA (update_text_buffer s c) = BRIGHTNESS_BETA s.
Proof. unfold update_text_buffer. by destruct (_ && _). Qed.

Lemma handle_key_beta (s : State) (key : Z) :
  BRIGHTNESS_BETA (handle_key s key).1
  = if bool_decide (key = 43 \/ key = 61)%Z
    then Z.min 100 (BRIGHTNESS_BETA s + 5) else BRIGHTNESS_BETA s.
Proof. unfold handle_key. cbn [fst]. by destruct (bool_decide _). Qed.

Lemma iteration_beta (m : Model) (s : State) (frame : option Results)
    (key : Z) :
  beta_ok (BRIGHTNESS_BETA s) ->
  beta_ok (BRIGHTNESS_BETA (iteration m s frame key).1) /\
  (BRIGHTNESS_BETA s <= BRIGHTNESS_BETA (iteration m s frame key).1)%Z.
Proof.
  intros [Hr Hd].
  assert (G : forall s', BRIGHTNESS_BETA s' = BRIGHTNESS_BETA s ->
            beta_ok (BRIGHTNESS_BETA (handle_key s' key).1) /\
            (BRIGHTNESS_BETA s <= BRIGHTNESS_BETA (handle_key s' key).1)%Z).
  { intros s' E. rewrite handle_key_beta, E. unfold beta_ok.
    destruct (bool_decide _); [|split; [done|lia]].
    destruct (Z.min_spec 100 (BRIGHTNESS_BETA s + 5)) as [[? ->]|[? ->]].
    - split; [split; [lia|by exists 20%Z]|lia].
    - split; [split; [lia|]|lia].
      destruct Hd as [q Hq]. exists (q + 1)%Z. lia. }
  unfold iteration. destruct frame as [r|]; [|split; [done|cbn; lia]].
  destruct (build_features r) as [| |data];
    [by apply G|split; [done|cbn; lia]|].
  destruct (length data =? 84); [|by apply G].
  apply G. unfold detect. by rewrite update_text_buffer_beta.
Qed.

(** X18 -- The script's software brightness starts at 0, only ever grows, in
    steps of 5 on '+' or '=', and never passes 100, whatever frames are read
    and keys pressed. *)
Theorem brightness_bounded (m : Model) (s : State)
    (inputs : list (option Results * Z)) :
  (0 <= BRIGHTNESS_BETA s <= 100)%Z -> (5 | BRIGHTNESS_BETA s)%Z ->
  let s' := main_loop m s inputs in
  (BRIGHTNESS_BETA s <= BRIGHTNESS_BETA s' <= 100)%Z /\
  (5 | BRIGHTNESS_BETA s')%Z.
Proof.
  intros Hr Hd. cbn zeta.
  assert (G : beta_ok (BRIGHTNESS_BETA (main_loop m s inputs)) /\
              (BRIGHTNESS_BETA s <= BRIGHTNESS_BETA (main_loop m s inputs))%Z).
  { assert (Hok : beta_ok (BRIGHTNESS_BETA s)) by done. clear Hr Hd.
    revert s Hok. induction inputs as [|[frame key] inputs IH]; intros s Hok.
    - split; [done|cbn; lia].
    - cbn [main_loop].
      destruct (iteration_beta m s frame key Hok) as [H1 H2].
      destruct (iteration m s frame key) as [s1 continue]. cbn [fst] in H1, H2.
      destruct continue; [|done].
      destruct (IH s1 H1) as [I1 I2]. split; [done|lia]. }
  destruct G as [[G1 G2] G3]. split; [lia|done].
Qed.

Lemma brightness_bounded_witness :
  let s' := main_loop sample_hard_model initial
              (replicate 25 (Some frame_H, 43%Z) ++ [(Some no_hand, 61%Z)]) in
  (BRIGHTNESS_BETA initial <= BRIGHTNESS_BETA s' <= 100)%Z /\
  (5 | BRIGHTNESS_BETA s')%Z.
Proof.
  apply (brightness_bounded sample_hard_model initial
           (replicate 25 (Some frame_H, 43%Z) ++ [(Some no_hand, 61%Z)]));
    [cbn; lia | by exists 0%Z].
Defined.

(** X19 -- Typing with the keyboard.  The space key followed by the backspace
    key gives the state back unchanged; backspace on an empty buffer and the
    keys that mean nothing change nothing; no key touches the held label or
    the counter, so a letter removed with backspace while its sign is still
    shown is not typed again. *)
Theorem keyboard_editing (m : Model) (s : State) (L : string)
    (rs : list Results) :
  last_predicted_character s = Some L ->
  Forall (fun r => shows m L r = true) rs ->
  (handle_key (handle_key s 32).1 8).1 = s /\
  (text_buffer s = [] -> (handle_key s 8).1 = s) /\
  (forall key, last_predicted_character (handle_key s key).1 = Some L /\
               frames_since_last_char (handle_key s key).1
               = frames_since_last_char s) /\
  text_buffer (watch m (handle_key s 8).1 rs)
  = text_buffer (handle_key s 8).1 /\
  text_buffer (watch m (handle_key s 127).1 rs) = [].
Proof.
  intros Hl Hall.
  assert (Hk : forall key,
             last_predicted_character (handle_key s key).1 = Some L).
  { intros key. unfold handle_key. cbn [fst]. by destruct (bool_decide _). }
  split; [|split; [|split; [|split]]].
  - destruct s as [l b f be pr]. unfold handle_key. cbn [fst text_buffer
      last_predicted_character frames_since_last_char BRIGHTNESS_BETA printed].
    repeat case_bool_decide; try lia.
    cbn [text_buffer last_predicted_character frames_since_last_char
         BRIGHTNESS_BETA printed].
    f_equal. destruct (b ++ [" "]) eqn:E; [by destruct b|].
    rewrite <- E. apply removelast_last.
  - destruct s as [l b f be pr]. cbn [text_buffer]. intros ->.
    unfold handle_key. cbn [fst text_buffer].
    repeat case_bool_decide; try lia. done.
  - intros key. split; [done|]. unfold handle_key. cbn [fst].
    by destruct (bool_decide _).
  - by destruct (ScriptFacts.watch_held_label m L rs _ Hall (Hk 8%Z))
      as (-> & _).
  - destruct (ScriptFacts.watch_held_label m L rs _ Hall (Hk 127%Z))
      as (-> & _). unfold handle_key. cbn [fst].
    repeat case_bool_decide; try lia. done.
Qed.

Lemma keyboard_editing_witness :
  let m := sample_hard_model in
  let s := watch m initial [frame_H] in
  let rs := replicate 8 frame_H in
  (handle_key (handle_key s 32).1 8).1 = s /\
  (text_buffer s = [] -> (handle_key s 8).1 = s) /\
  (forall key, last_predicted_character (handle_key s key).1 = Some "A" /\
               frames_since_last_char (handle_key s key).1
               = frames_since_last_char s) /\
  text_buffer (watch m (handle_key s 8).1 rs)
  = text_buffer (handle_key s 8).1 /\
  text_buffer (watch m (handle_key s 127).1 rs) = [].
Proof.
  apply (keyboard_editing sample_hard_model
           (watch sample_hard_model initial [frame_H]) "A"
           (replicate 8 frame_H));
    [by vm_compute|].
  apply Forall_forall. intros r Hr. apply elem_of_replicate in Hr as [-> _].
  by vm_compute.
Defined.

(** How the script's loop ends.  It stops at the first failed read, and
    at the first 'q' pressed on a frame that reaches the key handling; later
    inputs are not looked at.  A frame whose hands carry no landmarks skips
    the key handling, so the key pressed during it, 'q' included, is
    lost. *)
Theorem loop_end (m : Model) (s : State) (r : Results) (key : Z)
    (rest : list (option Results * Z)) :
  main_loop m s ((None, key) :: rest) = s /\
  (build_features r <> NoLandmarks ->
   main_loop m s ((Some r, 113%Z) :: rest)
   = (iteration m s (Some r) 113).1) /\
  (build_features r = NoLandmarks ->
   main_loop m s ((Some r, key) :: rest) = main_loop m s rest).
Proof.
  split; [done|]. split.
  - intros Hne. cbn [main_loop]. unfold iteration.
    destruct (build_features r) as [| |data]; [done|done|].
    by destruct (length data =? 84).
  - intros E. cbn [main_loop]. unfold iteration. by rewrite E.
Qed.

End ScriptLoop.

(** * The theorems at sample inputs

    The statements above hold whatever order [np.argsort] gives to equal
    entries.  The sample runs below use the stable one. *)

#[global] Existing Instance sample_numpy.

(** A probability of 0.22 for 'C', whose threshold is 0.22. *)
Lemma confidence_gate_witness :
  let c := {| predicted_character := "C"; proba := Some 0.22%float;
              proba_vec := None |} in
  let t := class_threshold (predicted_character c) in
  (passed_threshold c = true <-> PrimFloat.leb t 0.22%float = true) /\
  (forall o, (predicted_character c, o) ∈ PER_CLASS_THRESHOLDS_items -> t = o) /\
  (predicted_character c ∉ PER_CLASS_THRESHOLDS_items.*1 ->
   t = 0.65%float) /\
  (0.22%float = t -> passed_threshold c = true) /\
  (PrimFloat.ltb 0.22%float t = true -> passed_threshold c = false).
Proof.
  exact (confidence_gate
           {| predicted_character := "C"; proba := Some 0.22%float;
              proba_vec := None |} 0.22%float eq_refl).
Defined.

(** One unit in the last place below the threshold the gate stays shut, for
    an overridden class and for the default. *)
Example gate_one_unit_below :
  passed_threshold {| predicted_character := "C";
                      proba := Some (next_down 0.22%float);
                      proba_vec := None |} = false
  /\ passed_threshold {| predicted_character := "Z";
                         proba := Some 0.65%float; proba_vec := None |} = true
  /\ passed_threshold {| predicted_character := "Z";
                         proba := Some (next_down 0.65%float);
                         proba_vec := None |} = false.
Proof. by vm_compute. Qed.

Lemma hard_classifier_passes_gate_witness :
  let c := classify sample_hard_model
             (0.25%float :: replicate 83 0%float) in
  proba c = None /\ passed_threshold c = true /\
  (process_frame (initial (Some sample_hard_model)) frame_H).2
  = RetPrediction (predicted_character c) None /\
  accepted c = bool_decide (predicted_character c <> "Unknown").
Proof.
  exact (hard_classifier_passes_gate (fun _ => Some 9%Z)
           (0.25%float :: replicate 83 0%float)
           (initial (Some sample_hard_model)) frame_H
           eq_refl eq_refl eq_refl).
Defined.

Lemma action_dispatcher_witness :
  let c := {| predicted_character := "B"; proba := None; proba_vec := None |} in
  let g := set_text_buffer ["A"; "B"] (initial (Some sample_hard_model)) in
  let ch := predicted_character c in
  let buf := text_buffer g in
  let g' := update_text_buffer g c in
  (ACTION_GESTURES !! ch = Some "SPACE" ->
     text_buffer g' = buf ++ [" "] /\
     get_text_buffer g' = (get_text_buffer g +:+ " ")%string) /\
  (ACTION_GESTURES !! ch = Some "BACKSPACE" ->
     (buf = [] -> text_buffer g' = []) /\
     (forall l x, buf = l ++ [x] -> text_buffer g' = l) /\
     (buf = ["A"; "B"] -> get_text_buffer g' = "A")) /\
  (ACTION_GESTURES !! ch = Some "DELETE" -> text_buffer g' = []) /\
  (ACTION_GESTURES !! ch = None ->
     text_buffer g' = buf ++ [ch] /\
     get_text_buffer g' = (get_text_buffer g +:+ ch)%string).
Proof.
  exact (action_dispatcher
           (set_text_buffer ["A"; "B"] (initial (Some sample_hard_model)))
           {| predicted_character := "B"; proba := None; proba_vec := None |}
           eq_refl).
Defined.

Example dispatcher_scenarios :
  dispatch (ACTION_GESTURES !! "BACKSPACE") "BACKSPACE" ["A"; "B"] = ["A"]
  /\ dispatch (ACTION_GESTURES !! "B") "B" [] = []
  /\ dispatch (ACTION_GESTURES !! "DELETE") "DELETE" ["A"; "B"] = []
  /\ dispatch (ACTION_GESTURES !! "S") "S" ["A"; "B"] = ["A"; "B"; " "]
  /\ dispatch (ACTION_GESTURES !! "H") "H" ["A"] = ["A"; "H"].
Proof. by vm_compute. Qed.

Lemma debounce_responsiveness_witness :
  let g := process_frames (initial (Some sample_proba_model))
             [frame_H; frame_H; frame_H] in
  let g' := (process_frame g frame_I).1 in
  last_predicted_character g' = Some "I" /\
  frames_since_last_char g' = 0 /\
  emissions g [frame_I] = [["I"]] /\
  text_buffer g' = dispatch (ACTION_GESTURES !! "I") "I" (text_buffer g).
Proof.
  apply (debounce_responsiveness
           (process_frames (initial (Some sample_proba_model))
              [frame_H; frame_H; frame_H])
           sample_proba_model "H" "I" 2 frame_I);
    [reflexivity | by vm_compute | by vm_compute | discriminate
    | by vm_compute].
Defined.

(** Two hands reported Right then Left: the block of the second hand, the
    Left one, comes first. *)
Lemma feature_builder_contract_witness :
  let left_hand := sample_hand 0.25%float 0.5%float in
  let right_hand := sample_hand 0.5%float 0.25%float in
  let r := {| multi_hand_landmarks := [right_hand; left_hand];
              multi_handedness := [Some "Right"; Some "Left"] |} in
  exists b_right b_left,
    hand_feats right_hand = Some b_right /\
    hand_feats left_hand = Some b_left /\
    build_features r = Features (b_left ++ b_right) /\
    b_left = 0%float :: 0.25%float :: replicate 40 0%float /\
    b_right = 0.25%float :: replicate 41 0%float /\
    (forall g, multi_hand_landmarks r = [] -> (process_frame g r).1 = g) /\
    forall g m, model g = Some m ->
      model_calls (trace (process_frame g r).1)
      = model_calls (trace g) ++ [b_left ++ b_right].
Proof.
  intros left_hand right_hand r.
  assert (Hv : valid_hands r) by (unfold valid_hands; repeat constructor).
  destruct (feature_builder_contract r Hv) as (_ & H0 & Hn & _ & H2 & _).
  destruct (H2 right_hand left_hand eq_refl) as (b1 & b2 & Hb1 & Hb2 & Hf).
  exists b1, b2. split; [done|]. split; [done|].
  rewrite bool_decide_eq_false_2 in Hf by discriminate.
  rewrite bool_decide_eq_true_2 in Hf by reflexivity.
  split; [done|].
  split; [clear - Hb2; vm_compute in Hb2; vm_compute; congruence|].
  split; [clear - Hb1; vm_compute in Hb1; vm_compute; congruence|].
  split; [intros g E; destruct (H0 E) as [_ Hg]; by rewrite Hg|].
  intros g m Hm. destruct (Hn ltac:(discriminate)) as (data & Hd & _ & Hc).
  rewrite Hf in Hd. injection Hd as <-. exact (proj1 (Hc g m Hm)).
Defined.

(** Two hands reported Right then Left: the Left hand's block comes first.
    One hand: its block, then 42 zeros.  No hand: nothing is built. *)
Example feature_builder_samples :
  build_features
    {| multi_hand_landmarks :=
         [sample_hand 0.5%float 0.25%float; sample_hand 0.25%float 0.5%float];
       multi_handedness := [Some "Right"; Some "Left"] |}
  = Features ((0%float :: 0.25%float :: replicate 40 0%float)
              ++ (0.25%float :: replicate 41 0%float))
  /\ build_features frame_H
     = Features ((0.25%float :: replicate 41 0%float) ++ replicate 42 0%float)
  /\ build_features no_hand = NoHands.
Proof. by vm_compute. Qed.

(** ** The sample sort keeps numpy's contract *)

(** [np_lt] is a strict weak order: numbers in their order, then the NaNs. *)
Lemma is_nan_Prim2SF (x : float) :
  PrimFloat.is_nan x = true -> Prim2SF x = S754_nan.
Proof.
  unfold PrimFloat.is_nan. rewrite FloatAxioms.eqb_spec. unfold SFeqb.
  intros H. destruct (Prim2SF x) as [s|s| |s m e] eqn:E; [| |done|];
    rewrite FloatFacts.SFcompare_refl in H by done; discriminate.
Qed.

Lemma ltb_nan (a b : float) :
  PrimFloat.is_nan a = true \/ PrimFloat.is_nan b = true ->
  PrimFloat.ltb a b = false.
Proof.
  rewrite FloatAxioms.ltb_spec. unfold SFltb.
  intros [H|H]; apply is_nan_Prim2SF in H; rewrite H; [done|].
  by destruct (Prim2SF a).
Qed.

Lemma np_lt_asym (a b : float) : np_lt a b = true -> np_lt b a = false.
Proof.
  unfold np_lt. intros H.
  destruct (PrimFloat.is_nan a) eqn:Ha, (PrimFloat.is_nan b) eqn:Hb;
    cbn [andb negb] in *; rewrite ?orb_false_r, ?orb_true_r in *.
  - rewrite ltb_nan in H by auto. discriminate.
  - rewrite ltb_nan in H by auto. discriminate.
  - rewrite ltb_nan by auto. done.
  - destruct (PrimFloat.ltb b a) eqn:E; [|done].
    apply FloatFacts.ltb_not_leb in E. apply FloatOrder.ltb_leb in H.
    congruence.
Qed.

Lemma np_lt_negtrans (a b c : float) :
  np_lt b a = false -> np_lt c b = false -> np_lt c a = false.
Proof.
  unfold np_lt. intros H1 H2.
  destruct (PrimFloat.is_nan a) eqn:Ha, (PrimFloat.is_nan b) eqn:Hb,
    (PrimFloat.is_nan c) eqn:Hc;
    cbn [andb negb] in *; rewrite ?orb_false_r, ?orb_true_r in *;
    try discriminate; try (rewrite ltb_nan by auto; done).
  apply (FloatFacts.not_ltb_leb _ _ Ha Hb) in H1.
  apply (FloatFacts.not_ltb_leb _ _ Hb Hc) in H2.
  destruct (PrimFloat.ltb c a) eqn:E; [|done].
  apply FloatFacts.ltb_not_leb in E.
  pose proof (FloatOrder.leb_trans _ _ _ H1 H2). congruence.
Qed.

Lemma argsort_insert_perm (x : nat * float) (l : list (nat * float)) :
  Permutation (argsort_insert x l) (x :: l).
Proof.
  induction l as [|y l IH]; [done|]. cbn [argsort_insert].
  destruct (np_lt y.2 x.2); [|done].
  rewrite IH. apply perm_swap.
Qed.

Lemma argsort_insert_sorted (x : nat * float) (l : list (nat * float)) :
  StronglySorted (fun p q : nat * float => np_lt q.2 p.2 = false) l ->
  StronglySorted (fun p q : nat * float => np_lt q.2 p.2 = false)
                 (argsort_insert x l).
Proof.
  induction 1 as [|y l Hl IH Hy]; [repeat constructor|].
  cbn [argsort_insert]. destruct (np_lt y.2 x.2) eqn:E.
  - constructor; [exact IH|].
    rewrite argsort_insert_perm. constructor; [|exact Hy].
    by apply np_lt_asym.
  - constructor; [by constructor|]. constructor; [exact E|].
    eapply Forall_impl; [exact Hy|]. intros z Hz. cbn beta in *.
    by apply (np_lt_negtrans x.2 y.2 z.2).
Qed.

Lemma imap_indices {A} (k : nat) (v : list A) :
  (imap (fun i x => (k + i, x)) v).*1 = seq k (length v).
Proof.
  revert k. induction v as [|x v IH]; intros k; [done|].
  cbn [imap fmap list_fmap length seq fst]. rewrite Nat.add_0_r. f_equal.
  rewrite <- (IH (S k)). f_equal. apply imap_ext. intros i y _. cbn.
  f_equal. lia.
Qed.

(** The stable sort is within numpy's contract. *)
Lemma stable_argsort_contract : argsort_contract stable_argsort.
Proof.
  intros v. unfold stable_argsort.
  set (L := imap (fun i x => (i, x)) v).
  assert (Hperm : Permutation (foldr argsort_insert [] L) L).
  { induction L as [|p L IH]; [done|]. cbn [foldr].
    by rewrite argsort_insert_perm, IH. }
  assert (Hsorted : StronglySorted
                      (fun p q : nat * float => np_lt q.2 p.2 = false)
                      (foldr argsort_insert [] L)).
  { induction L as [|p L IH]; [constructor|]. cbn [foldr].
    apply argsort_insert_sorted, IH.
    clear -L. induction L as [|q L IH]; [done|]. cbn [foldr].
    by rewrite argsort_insert_perm, IH. }
  assert (Hcoh : Forall (fun p : nat * float => nth p.1 v 0%float = p.2)
                        (foldr argsort_insert [] L)).
  { rewrite Hperm. apply Forall_forall. intros p Hp.
    apply elem_of_lookup_imap in Hp as (i & x & -> & Hi). cbn.
    by rewrite nth_lookup, Hi. }
  split.
  - rewrite Hperm. unfold L. by rewrite <- (imap_indices 0 v).
  - clear Hperm. induction Hsorted as [|p l Hl IH Hp]; [constructor|].
    apply Forall_cons in Hcoh as [Hp0 Hcoh]. cbn [fmap list_fmap].
    constructor; [by apply IH|].
    apply Forall_fmap. rewrite Forall_forall in Hp, Hcoh |- *.
    intros q Hq. cbn. rewrite Hp0, (Hcoh q Hq). by apply Hp.
Qed.

Lemma emission_notification_witness :
  let g := initial (Some sample_proba_model) in
  let m := sample_proba_model in
  let r := frame_H in
  let v := 0.25%float :: replicate 83 0%float in
  let c := classify m v in
  let pv := one_hot 35 16 0.9%float in
  let g' := (process_frame g r).1 in
  argsort_contract np_argsort /\
  model g = Some m /\ processed m r = Some (v, c) /\
  proba_vec c = Some pv /\
  trace g' = trace g ++
     [ModelCall v;
      SocketEmit (sign_detected
        {| character := "H";
           confidence := Some 0.9%float;
           ev_text_buffer := "H";
           action := None;
           ev_top3 := top3 c |})] /\
  (exists idxs : list nat,
     top3 c = map (fun idx => (default ("?" +:+ pretty idx)
                                       (labels_dict !! Z.of_nat idx),
                               nth idx pv 0%float)) idxs /\
     length idxs = 3 /\
     NoDup idxs /\
     Forall (fun idx => idx < 35) idxs /\
     StronglySorted (fun i j => PrimFloat.leb (nth j pv 0%float)
                                              (nth i pv 0%float) = true)
                    idxs /\
     forall i j, i ∈ idxs -> j < 35 -> j ∉ idxs ->
       PrimFloat.leb (nth j pv 0%float) (nth i pv 0%float) = true) /\
  top3 c !! 0 = Some ("H", 0.9%float) /\
  map snd (top3 c) = [0.9%float; 0%float; 0%float].
Proof.
  intros g m r v c pv g'.
  assert (Hp : processed m r = Some (v, c)) by (by vm_compute).
  destruct (emission_notification g m r v c eq_refl Hp)
    as (He & _ & Hv & _ & Ht & _).
  split; [exact stable_argsort_contract|].
  split; [reflexivity|]. split; [exact Hp|].
  assert (Hpv : proba_vec c = Some pv) by (by vm_compute).
  split; [exact Hpv|]. split.
  - unfold g'. rewrite He by (vm_compute; reflexivity).
    vm_compute. reflexivity.
  - split.
    + destruct (Ht stable_argsort_contract pv Hpv)
        as (idxs & H1 & H2 & H3 & H4 & H5).
      exists idxs. split; [exact H1|]. split; [exact H2|].
      split; [exact H3|]. split; [exact H4|].
      apply H5. unfold pv. vm_compute. repeat constructor.
    + vm_compute. split; reflexivity.
Defined.

(** The scenario on the sample frames: buffer "HI", two events. *)
Example hi_scenario :
  let g := process_frames (initial (Some sample_proba_model))
             [frame_H; frame_I] in
  get_text_buffer g = "HI"
  /\ map (fun p => (character p, confidence p, ev_text_buffer p, action p))
         (notifications (trace g))
     = [("H", Some 0.9%float, "H", None); ("I", Some 0.5%float, "HI", None)].
Proof. by vm_compute. Qed.

Lemma held_label_frames_witness :
  let m := sample_hard_model in
  let rs := replicate 6 frame_H in
  (length rs = 4 -> emissions (initial (Some m)) rs = [["A"]; []; []; []]) /\
  (length rs = 6 ->
   emissions (initial (Some m)) rs = [["A"]; []; []; []; []; ["A"]] /\
   frames_since_last_char (process_frames (initial (Some m)) (take 5 rs)) + 1
   = repeat_cooldown_frames /\
   let s := PredictionScript.watch m PredictionScript.initial rs in
   PredictionScript.last_predicted_character s = Some "A" /\
   PredictionScript.frames_since_last_char s = repeat_cooldown_frames /\
   PredictionScript.text_buffer s = dispatch (ACTION_GESTURES !! "A") "A" [] /\
   PredictionScript.text_buffer s
   = PredictionScript.text_buffer
       (PredictionScript.watch m PredictionScript.initial (take 1 rs))).
Proof.
  apply (held_label_frames sample_hard_model "A" (replicate 6 frame_H)).
  apply Forall_forall. intros r Hr. apply elem_of_replicate in Hr as [-> _].
  by vm_compute.
Defined.

(** The same six frames, evaluated: the server's buffer reads "AA" after two
    notifications, the script's buffer reads "A". *)
Example six_frames_of_A :
  let rs := replicate 6 frame_H in
  let g := process_frames (initial (Some sample_hard_model)) rs in
  let s := PredictionScript.watch sample_hard_model
             PredictionScript.initial rs in
  get_text_buffer g = "AA"
  /\ map character (notifications (trace g)) = ["A"; "A"]
  /\ PredictionScript.text_buffer s = ["A"]
  /\ PredictionScript.printed s = ["A"]
  /\ PredictionScript.frames_since_last_char s = 5.
Proof. by vm_compute. Qed.

(** Four frames: one emission on either loop. *)
Example four_frames_of_A :
  let rs := replicate 4 frame_H in
  emissions (initial (Some sample_hard_model)) rs = [["A"]; []; []; []]
  /\ PredictionScript.text_buffer
       (PredictionScript.watch sample_hard_model PredictionScript.initial rs)
     = ["A"].
Proof. by vm_compute. Qed.



Example rejected_starts :
  start_detection (initial None)
  = (initial None, {| success := false; message := "Model not loaded" |})
  /\ (let g := set_text_buffer ["H"; "I"]
                 (run (initial (Some sample_hard_model))
                      [CallStartDetection]) in
      start_detection g
      = (g, {| success := false; message := "Detection already active" |})).
Proof. split; reflexivity. Qed.

Lemma start_detection_resets_buffer_witness :
  let g := set_text_buffer ["H"; "I"] (initial (Some sample_hard_model)) in
  let g' := (start_detection g).1 in
  text_buffer g' = [] /\ get_text_buffer g' = "" /\
  is_detection_active g' = true /\
  exists g2, text_buffer g2 = [] /\ g' = spawn_worker g2 /\
             trace g' = trace g ++ [ThreadStart] /\
             workers g' = workers g ++ [AtOpen].
Proof.
  exact (start_detection_resets_buffer
           (set_text_buffer ["H"; "I"] (initial (Some sample_hard_model)))
           _ _ eq_refl eq_refl).
Defined.

(** Each of the three letters shown to a server whose buffer reads "HI":
    'S' adds a space, 'B' drops the 'I', 'D' clears the buffer. *)
Example letters_read_as_actions :
  let show (z : Z) :=
    (process_frame
       (set_text_buffer ["H"; "I"]
          (initial (Some (HardModel (fun _ => Some z))))) frame_H).1 in
  get_text_buffer (show 27%Z) = "HI "
  /\ get_text_buffer (show 10%Z) = "H"
  /\ get_text_buffer (show 12%Z) = "".
Proof. by vm_compute. Qed.

Lemma never_twice_in_a_row_witness :
  "H" <> "I".
Proof.
  apply (never_twice_in_a_row (initial (Some sample_proba_model))
           sample_proba_model frame_H frame_I "H" "I");
    [reflexivity | by vm_compute].
Defined.

Lemma held_label_periodic_witness :
  let rs := replicate 12 frame_H in
  let g := initial (Some sample_hard_model) in
  emissions g rs
  = map (fun k => if k mod 5 =? 0 then ["A"] else []) (seq 0 (length rs)) /\
  length (concat (emissions g rs)) = (length rs + 4) / 5.
Proof.
  apply (held_label_periodic sample_hard_model "A" (replicate 12 frame_H)
           (initial (Some sample_hard_model)));
    [reflexivity | discriminate |].
  apply Forall_forall. intros r Hr. apply elem_of_replicate in Hr as [-> _].
  by vm_compute.
Defined.

Lemma no_hand_frames_change_nothing_witness :
  let g := process_frames (initial (Some sample_hard_model)) [frame_H] in
  let gap := [no_hand; no_hand; no_hand; no_hand; no_hand; no_hand] in
  let rs := [frame_H] in
  process_frames g (gap ++ rs) = process_frames g rs /\
  emissions g (gap ++ rs) = replicate (length gap) [] ++ emissions g rs /\
  (forall m L r,
     rs = [r] -> model g = Some m -> last_predicted_character g = Some L ->
     frames_since_last_char g + 1 < repeat_cooldown_frames ->
     shows m L r = true ->
     concat (emissions g (gap ++ rs)) = []).
Proof.
  apply (no_hand_frames_change_nothing
           (process_frames (initial (Some sample_hard_model)) [frame_H])
           [no_hand; no_hand; no_hand; no_hand; no_hand; no_hand] [frame_H]).
  repeat constructor.
Defined.

Lemma rejected_frames_advance_cooldown_witness :
  let m := sample_flicker_model in
  let g := process_frames (initial (Some m)) [frame_H] in
  let gap := replicate 4 frame_I in
  let g' := process_frames g gap in
  text_buffer g' = text_buffer g /\
  last_predicted_character g' = Some "A" /\
  frames_since_last_char g' = frames_since_last_char g + length gap /\
  notifications (trace g') = notifications (trace g) /\
  emissions g (gap ++ [frame_H])
  = replicate (length gap) []
    ++ [if repeat_cooldown_frames
           <=? frames_since_last_char g + length gap + 1
        then ["A"] else []].
Proof.
  apply (rejected_frames_advance_cooldown
           (process_frames (initial (Some sample_flicker_model)) [frame_H])
           sample_flicker_model "A" (replicate 4 frame_I) frame_H);
    [reflexivity | by vm_compute | | by vm_compute].
  apply Forall_forall. intros r Hr. apply elem_of_replicate in Hr as [-> _].
  by vm_compute.
Defined.

(** The flickering sign: 'A', four unrecognised frames, 'A' again types
    "AA"; with the hand out of view instead, it types "A". *)
Example flicker_and_hidden_hand :
  let m := sample_flicker_model in
  get_text_buffer
    (process_frames (initial (Some m))
       ([frame_H] ++ replicate 4 frame_I ++ [frame_H])) = "AA"
  /\ get_text_buffer
       (process_frames (initial (Some m))
          ([frame_H] ++ replicate 4 no_hand ++ [frame_H])) = "A".
Proof. by vm_compute. Qed.

Lemma restart_keeps_held_label_witness :
  let m := sample_hard_model in
  let g := run (initial (Some m))
             [CallStartDetection; WorkerOpens 0 true;
              WorkerIterates 0 (Some frame_H); CallStopDetection] in
  (let g1 := (start_detection g).1 in
   text_buffer g1 = [] /\
   last_predicted_character g1 = Some "A" /\
   frames_since_last_char g1 = frames_since_last_char g /\
   emissions g1 [frame_H] = [[]] /\
   text_buffer (process_frame g1 frame_H).1 = []) /\
  (let g2 := (clear_buffer g).1 in
   text_buffer g2 = [] /\
   last_predicted_character g2 = Some "A" /\
   frames_since_last_char g2 = frames_since_last_char g /\
   emissions g2 [frame_H] = [[]] /\
   text_buffer (process_frame g2 frame_H).1 = []).
Proof.
  apply (restart_keeps_held_label
           (run (initial (Some sample_hard_model))
              [CallStartDetection; WorkerOpens 0 true;
               WorkerIterates 0 (Some frame_H); CallStopDetection])
           sample_hard_model "A" frame_H);
    [reflexivity | reflexivity | by vm_compute
    | vm_compute; lia | by vm_compute].
Defined.

Lemma published_events_sound_witness :
  Forall sound_event
    (notifications
       (trace (run (initial (Some sample_proba_model))
                 [CallStartDetection; WorkerOpens 0 true;
                  WorkerIterates 0 (Some frame_H);
                  WorkerIterates 0 (Some frame_I)]))).
Proof.
  apply (published_events_sound (Some sample_proba_model)).
  cbn [run fold_left]. repeat apply reachable_step. apply reachable_initial.
Defined.

Lemma buffer_entries_are_characters_witness :
  let g := run (initial (Some sample_proba_model))
             [CallStartDetection; WorkerOpens 0 true;
              WorkerIterates 0 (Some frame_H);
              WorkerIterates 0 (Some frame_I)] in
  single_chars (text_buffer g) = true /\
  String.length (get_text_buffer g) = length (text_buffer g) /\
  (text_buffer g <> [] ->
   String.length
     (join (dispatch (Some "BACKSPACE") "B" (text_buffer g))) + 1
   = String.length (get_text_buffer g)).
Proof.
  apply (buffer_entries_are_characters (Some sample_proba_model)).
  cbn [run fold_left]. repeat apply reachable_step. apply reachable_initial.
Defined.

Lemma classifier_input_always_84_witness :
  Forall (fun v => length v = 84)
    (model_calls
       (trace (run (initial (Some sample_proba_model))
                 [CallStartDetection; WorkerOpens 0 true;
                  WorkerIterates 0 (Some frame_H);
                  WorkerIterates 0 (Some no_hand);
                  WorkerIterates 0 (Some frame_I)]))).
Proof.
  apply (classifier_input_always_84 (Some sample_proba_model)).
  cbn [run fold_left]. repeat apply reachable_step. apply reachable_initial.
Defined.

Lemma cameras_accounted_for_witness :
  let g := run (initial (Some sample_hard_model))
             [CallStartDetection; WorkerOpens 0 true;
              WorkerIterates 0 (Some frame_H); CallStopDetection;
              CallStartDetection; WorkerOpens 1 false;
              WorkerIterates 0 None] in
  count_effect is_thread_start (trace g) = length (workers g) /\
  count_effect is_camera_open (trace g) + count_pc AtOpen (workers g)
  = length (workers g) /\
  count_effect is_camera_started (trace g)
  = count_pc InLoop (workers g) + count_effect is_camera_release (trace g).
Proof.
  apply (cameras_accounted_for (Some sample_hard_model)).
  cbn [run fold_left]. repeat apply reachable_step. apply reachable_initial.
Defined.

Lemma camera_failure_leaves_session_active_witness :
  let g := run (initial (Some sample_hard_model))
             [CallStartDetection; WorkerOpens 0 true] in
  let g' := step g (WorkerIterates 0 None) in
  workers g' !! 0 = Some Exited /\
  is_detection_active g' = true /\
  text_buffer g' = text_buffer g /\
  start_detection g'
  = (g', {| success := false; message := "Detection already active" |}) /\
  (start_detection (stop_detection g').1).2
  = {| success := true; message := "Detection started" |}.
Proof.
  apply (camera_failure_leaves_session_active
           (run (initial (Some sample_hard_model))
              [CallStartDetection; WorkerOpens 0 true])
           sample_hard_model 0 InLoop);
    [reflexivity | reflexivity | reflexivity | discriminate].
Defined.

Lemma stop_is_seen_at_next_poll_witness :
  let g := run (initial (Some sample_hard_model))
             [CallStartDetection; WorkerOpens 0 true;
              WorkerIterates 0 (Some frame_H)] in
  let g1 := (stop_detection g).1 in
  let g2 := step g1 (WorkerIterates 0 (Some frame_I)) in
  workers g2 !! 0 = Some Exited /\
  trace g2
  = trace g ++ [CameraRelease; SocketEmit (status "Camera stopped")] /\
  text_buffer g2 = text_buffer g /\
  last_predicted_character g2 = last_predicted_character g /\
  frames_since_last_char g2 = frames_since_last_char g /\
  step g2 (WorkerIterates 0 (Some frame_I)) = g2.
Proof.
  exact (stop_is_seen_at_next_poll
           (run (initial (Some sample_hard_model))
              [CallStartDetection; WorkerOpens 0 true;
               WorkerIterates 0 (Some frame_H)])
           0 (Some frame_I) eq_refl).
Defined.

Lemma stop_then_start_keeps_old_worker_witness :
  let g := run (initial (Some sample_hard_model))
             [CallStartDetection; WorkerOpens 0 true] in
  let g' := run g [CallStopDetection; CallStartDetection] in
  is_detection_active g' = true /\
  workers g' = workers g ++ [AtOpen] /\
  workers g' !! 0 = Some InLoop /\
  text_buffer g' = [] /\
  step g' (WorkerIterates 0 (Some frame_H)) = (process_frame g' frame_H).1 /\
  count_pc Exited (workers (step g' (WorkerOpens (length (workers g)) true)))
  = count_pc Exited (workers g) /\
  count_pc InLoop (workers (step g' (WorkerOpens (length (workers g)) true)))
  = count_pc InLoop (workers g) + 1.
Proof.
  exact (stop_then_start_keeps_old_worker
           (run (initial (Some sample_hard_model))
              [CallStartDetection; WorkerOpens 0 true])
           sample_hard_model 0 frame_H eq_refl eq_refl).
Defined.

Lemma hand_order_witness :
  let left_hand := sample_hand 0.25%float 0.5%float in
  let r := {| multi_hand_landmarks :=
                [sample_hand 0.5%float 0.25%float; left_hand];
              multi_handedness := [Some "Right"; Some "Left"] |} in
  valid_hands r /\
  exists p b tail,
    p ∈ paired r /\ p.1 = Some "Left" /\ hand_feats p.2 = Some b /\
    length b = 42 /\ length tail = 42 /\
    build_features r = Features (b ++ tail).
Proof.
  intros left_hand r.
  assert (Hv : valid_hands r) by (unfold valid_hands; repeat constructor).
  split; [exact Hv|].
  apply (hand_order r Hv).
  apply list_elem_of_fmap. exists (Some "Left", left_hand).
  split; [done|]. unfold paired. cbn. set_solver.
Defined.

Example hand_order_sample :
  let r := {| multi_hand_landmarks :=
                [sample_hand 0.5%float 0.25%float;
                 sample_hand 0.25%float 0.5%float;
                 sample_hand 0.5%float 0.5%float];
              multi_handedness := [Some "Right"; None; Some "Left"] |} in
  (sorted_hands r).*1 = [Some "Left"; Some "Right"].
Proof. by vm_compute. Qed.

Lemma confidence_is_label_probability_witness :
  let v := one_hot 35 16 0.9%float in
  let data_aux := 0.25%float :: replicate 83 0%float in
  let c := classify sample_proba_model data_aux in
  (v = [] -> predicted_character c = "Unknown" /\ proba c = None) /\
  (v <> [] ->
   exists k p,
     v !! k = Some p /\ proba c = Some p /\
     predicted_character c = label_of (Z.of_nat k) /\
     (Forall (fun q => PrimFloat.is_nan q = false) v ->
      Forall (fun q => PrimFloat.leb q p = true) v)).
Proof.
  exact (confidence_is_label_probability _
           (0.25%float :: replicate 83 0%float)
           (one_hot 35 16 0.9%float) eq_refl).
Defined.

(** On the sample file system: the unreadable first file is passed over,
    the pickle without a model entry ends the search, and the model at the
    third place is never opened. *)
Example load_model_shadowed :
  _load_model sample_join "/srv" sample_fs
  = (None, ["./model.p"; "/srv/model.p"]).
Proof. reflexivity. Qed.

